(** * A customer-support chatbot: text normalisation, category matching,
      intent classification and the chat send handler of [app.py].

    Python [str] values are sequences of Unicode code points; they are
    modelled as lists of integers.  The string methods the program calls
    ([strip], [lower], [split], [splitlines], [in]) and the one regular
    expression it uses ([re.sub(r"\s+", " ", _)]) are written out as list
    functions over the character data CPython 3.11 ships (Unicode 14.0). *)

From Stdlib Require Import ZArith List Bool String Ascii Lia.
Import ListNotations.
Local Open Scope Z_scope.

(** ** Unicode character data *)

Module UCD.

(** Code points for which [str.isspace] holds.  [str.strip], [str.split]
    and the regular-expression class [\s] all use this same set. *)
Definition whitespace : list Z :=
  [ 0x09; 0x0A; 0x0B; 0x0C; 0x0D; 0x1C; 0x1D; 0x1E; 0x1F; 0x20; 0x85; 0xA0;
    0x1680; 0x2000; 0x2001; 0x2002; 0x2003; 0x2004; 0x2005; 0x2006; 0x2007;
    0x2008; 0x2009; 0x200A; 0x2028; 0x2029; 0x202F; 0x205F; 0x3000 ].

(** Code points at which [str.splitlines] breaks a line. *)
Definition line_boundaries : list Z :=
  [ 0x0A; 0x0B; 0x0C; 0x0D; 0x1C; 0x1D; 0x1E; 0x85; 0x2028; 0x2029 ].

(** Simple lower-case mappings, as runs [(lo, hi, stride, delta)]: every
    code point [lo + k * stride] up to [hi] maps to itself plus [delta]. *)
Definition lowercase_runs : list (Z * Z * Z * Z) :=
[
    (0x41, 0x5A, 1, 32); (0xC0, 0xD6, 1, 32); (0xD8, 0xDE, 1, 32); (0x100, 0x12E, 2, 1);
    (0x132, 0x136, 2, 1); (0x139, 0x147, 2, 1); (0x14A, 0x176, 2, 1); (0x178, 0x178, 1, (-121));
    (0x179, 0x17D, 2, 1); (0x181, 0x181, 1, 210); (0x182, 0x184, 2, 1); (0x186, 0x186, 1, 206);
    (0x187, 0x187, 1, 1); (0x189, 0x18A, 1, 205); (0x18B, 0x18B, 1, 1); (0x18E, 0x18E, 1, 79);
    (0x18F, 0x18F, 1, 202); (0x190, 0x190, 1, 203); (0x191, 0x191, 1, 1); (0x193, 0x193, 1, 205);
    (0x194, 0x194, 1, 207); (0x196, 0x196, 1, 211); (0x197, 0x197, 1, 209); (0x198, 0x198, 1, 1);
    (0x19C, 0x19C, 1, 211); (0x19D, 0x19D, 1, 213); (0x19F, 0x19F, 1, 214); (0x1A0, 0x1A4, 2, 1);
    (0x1A6, 0x1A6, 1, 218); (0x1A7, 0x1A7, 1, 1); (0x1A9, 0x1A9, 1, 218); (0x1AC, 0x1AC, 1, 1);
    (0x1AE, 0x1AE, 1, 218); (0x1AF, 0x1AF, 1, 1); (0x1B1, 0x1B2, 1, 217); (0x1B3, 0x1B5, 2, 1);
    (0x1B7, 0x1B7, 1, 219); (0x1B8, 0x1B8, 1, 1); (0x1BC, 0x1BC, 1, 1); (0x1C4, 0x1C4, 1, 2);
    (0x1C5, 0x1C5, 1, 1); (0x1C7, 0x1C7, 1, 2); (0x1C8, 0x1C8, 1, 1); (0x1CA, 0x1CA, 1, 2);
    (0x1CB, 0x1DB, 2, 1); (0x1DE, 0x1EE, 2, 1); (0x1F1, 0x1F1, 1, 2); (0x1F2, 0x1F4, 2, 1);
    (0x1F6, 0x1F6, 1, (-97)); (0x1F7, 0x1F7, 1, (-56)); (0x1F8, 0x21E, 2, 1); (0x220, 0x220, 1, (-130));
    (0x222, 0x232, 2, 1); (0x23A, 0x23A, 1, 10795); (0x23B, 0x23B, 1, 1); (0x23D, 0x23D, 1, (-163));
    (0x23E, 0x23E, 1, 10792); (0x241, 0x241, 1, 1); (0x243, 0x243, 1, (-195)); (0x244, 0x244, 1, 69);
    (0x245, 0x245, 1, 71); (0x246, 0x24E, 2, 1); (0x370, 0x372, 2, 1); (0x376, 0x376, 1, 1);
    (0x37F, 0x37F, 1, 116); (0x386, 0x386, 1, 38); (0x388, 0x38A, 1, 37); (0x38C, 0x38C, 1, 64);
    (0x38E, 0x38F, 1, 63); (0x391, 0x3A1, 1, 32); (0x3A3, 0x3AB, 1, 32); (0x3CF, 0x3CF, 1, 8);
    (0x3D8, 0x3EE, 2, 1); (0x3F4, 0x3F4, 1, (-60)); (0x3F7, 0x3F7, 1, 1); (0x3F9, 0x3F9, 1, (-7));
    (0x3FA, 0x3FA, 1, 1); (0x3FD, 0x3FF, 1, (-130)); (0x400, 0x40F, 1, 80); (0x410, 0x42F, 1, 32);
    (0x460, 0x480, 2, 1); (0x48A, 0x4BE, 2, 1); (0x4C0, 0x4C0, 1, 15); (0x4C1, 0x4CD, 2, 1);
    (0x4D0, 0x52E, 2, 1); (0x531, 0x556, 1, 48); (0x10A0, 0x10C5, 1, 7264); (0x10C7, 0x10C7, 1, 7264);
    (0x10CD, 0x10CD, 1, 7264); (0x13A0, 0x13EF, 1, 38864); (0x13F0, 0x13F5, 1, 8); (0x1C90, 0x1CBA, 1, (-3008));
    (0x1CBD, 0x1CBF, 1, (-3008)); (0x1E00, 0x1E94, 2, 1); (0x1E9E, 0x1E9E, 1, (-7615)); (0x1EA0, 0x1EFE, 2, 1);
    (0x1F08, 0x1F0F, 1, (-8)); (0x1F18, 0x1F1D, 1, (-8)); (0x1F28, 0x1F2F, 1, (-8)); (0x1F38, 0x1F3F, 1, (-8));
    (0x1F48, 0x1F4D, 1, (-8)); (0x1F59, 0x1F5F, 2, (-8)); (0x1F68, 0x1F6F, 1, (-8)); (0x1F88, 0x1F8F, 1, (-8));
    (0x1F98, 0x1F9F, 1, (-8)); (0x1FA8, 0x1FAF, 1, (-8)); (0x1FB8, 0x1FB9, 1, (-8)); (0x1FBA, 0x1FBB, 1, (-74));
    (0x1FBC, 0x1FBC, 1, (-9)); (0x1FC8, 0x1FCB, 1, (-86)); (0x1FCC, 0x1FCC, 1, (-9)); (0x1FD8, 0x1FD9, 1, (-8));
    (0x1FDA, 0x1FDB, 1, (-100)); (0x1FE8, 0x1FE9, 1, (-8)); (0x1FEA, 0x1FEB, 1, (-112)); (0x1FEC, 0x1FEC, 1, (-7));
    (0x1FF8, 0x1FF9, 1, (-128)); (0x1FFA, 0x1FFB, 1, (-126)); (0x1FFC, 0x1FFC, 1, (-9)); (0x2126, 0x2126, 1, (-7517));
    (0x212A, 0x212A, 1, (-8383)); (0x212B, 0x212B, 1, (-8262)); (0x2132, 0x2132, 1, 28); (0x2160, 0x216F, 1, 16);
    (0x2183, 0x2183, 1, 1); (0x24B6, 0x24CF, 1, 26); (0x2C00, 0x2C2F, 1, 48); (0x2C60, 0x2C60, 1, 1);
    (0x2C62, 0x2C62, 1, (-10743)); (0x2C63, 0x2C63, 1, (-3814)); (0x2C64, 0x2C64, 1, (-10727)); (0x2C67, 0x2C6B, 2, 1);
    (0x2C6D, 0x2C6D, 1, (-10780)); (0x2C6E, 0x2C6E, 1, (-10749)); (0x2C6F, 0x2C6F, 1, (-10783)); (0x2C70, 0x2C70, 1, (-10782));
    (0x2C72, 0x2C72, 1, 1); (0x2C75, 0x2C75, 1, 1); (0x2C7E, 0x2C7F, 1, (-10815)); (0x2C80, 0x2CE2, 2, 1);
    (0x2CEB, 0x2CED, 2, 1); (0x2CF2, 0x2CF2, 1, 1); (0xA640, 0xA66C, 2, 1); (0xA680, 0xA69A, 2, 1);
    (0xA722, 0xA72E, 2, 1); (0xA732, 0xA76E, 2, 1); (0xA779, 0xA77B, 2, 1); (0xA77D, 0xA77D, 1, (-35332));
    (0xA77E, 0xA786, 2, 1); (0xA78B, 0xA78B, 1, 1); (0xA78D, 0xA78D, 1, (-42280)); (0xA790, 0xA792, 2, 1);
    (0xA796, 0xA7A8, 2, 1); (0xA7AA, 0xA7AA, 1, (-42308)); (0xA7AB, 0xA7AB, 1, (-42319)); (0xA7AC, 0xA7AC, 1, (-42315));
    (0xA7AD, 0xA7AD, 1, (-42305)); (0xA7AE, 0xA7AE, 1, (-42308)); (0xA7B0, 0xA7B0, 1, (-42258)); (0xA7B1, 0xA7B1, 1, (-42282));
    (0xA7B2, 0xA7B2, 1, (-42261)); (0xA7B3, 0xA7B3, 1, 928); (0xA7B4, 0xA7C2, 2, 1); (0xA7C4, 0xA7C4, 1, (-48));
    (0xA7C5, 0xA7C5, 1, (-42307)); (0xA7C6, 0xA7C6, 1, (-35384)); (0xA7C7, 0xA7C9, 2, 1); (0xA7D0, 0xA7D0, 1, 1);
    (0xA7D6, 0xA7D8, 2, 1); (0xA7F5, 0xA7F5, 1, 1); (0xFF21, 0xFF3A, 1, 32); (0x10400, 0x10427, 1, 40);
    (0x104B0, 0x104D3, 1, 40); (0x10570, 0x1057A, 1, 39); (0x1057C, 0x1058A, 1, 39); (0x1058C, 0x10592, 1, 39);
    (0x10594, 0x10595, 1, 39); (0x10C80, 0x10CB2, 1, 64); (0x118A0, 0x118BF, 1, 32); (0x16E40, 0x16E5F, 1, 32);
    (0x1E900, 0x1E921, 1, 34)
].

(** Code points with the Cased property, as inclusive ranges. *)
Definition cased_ranges : list (Z * Z) :=
[
    (0x41, 0x5A); (0x61, 0x7A); (0xAA, 0xAA); (0xB5, 0xB5); (0xBA, 0xBA); (0xC0, 0xD6);
    (0xD8, 0xF6); (0xF8, 0x1BA); (0x1BC, 0x1BF); (0x1C4, 0x293); (0x295, 0x2B8); (0x2C0, 0x2C1);
    (0x2E0, 0x2E4); (0x345, 0x345); (0x370, 0x373); (0x376, 0x377); (0x37A, 0x37D); (0x37F, 0x37F);
    (0x386, 0x386); (0x388, 0x38A); (0x38C, 0x38C); (0x38E, 0x3A1); (0x3A3, 0x3F5); (0x3F7, 0x481);
    (0x48A, 0x52F); (0x531, 0x556); (0x560, 0x588); (0x10A0, 0x10C5); (0x10C7, 0x10C7); (0x10CD, 0x10CD);
    (0x10D0, 0x10FA); (0x10FD, 0x10FF); (0x13A0, 0x13F5); (0x13F8, 0x13FD); (0x1C80, 0x1C88); (0x1C90, 0x1CBA);
    (0x1CBD, 0x1CBF); (0x1D00, 0x1DBF); (0x1E00, 0x1F15); (0x1F18, 0x1F1D); (0x1F20, 0x1F45); (0x1F48, 0x1F4D);
    (0x1F50, 0x1F57); (0x1F59, 0x1F59); (0x1F5B, 0x1F5B); (0x1F5D, 0x1F5D); (0x1F5F, 0x1F7D); (0x1F80, 0x1FB4);
    (0x1FB6, 0x1FBC); (0x1FBE, 0x1FBE); (0x1FC2, 0x1FC4); (0x1FC6, 0x1FCC); (0x1FD0, 0x1FD3); (0x1FD6, 0x1FDB);
    (0x1FE0, 0x1FEC); (0x1FF2, 0x1FF4); (0x1FF6, 0x1FFC); (0x2071, 0x2071); (0x207F, 0x207F); (0x2090, 0x209C);
    (0x2102, 0x2102); (0x2107, 0x2107); (0x210A, 0x2113); (0x2115, 0x2115); (0x2119, 0x211D); (0x2124, 0x2124);
    (0x2126, 0x2126); (0x2128, 0x2128); (0x212A, 0x212D); (0x212F, 0x2134); (0x2139, 0x2139); (0x213C, 0x213F);
    (0x2145, 0x2149); (0x214E, 0x214E); (0x2160, 0x217F); (0x2183, 0x2184); (0x24B6, 0x24E9); (0x2C00, 0x2CE4);
    (0x2CEB, 0x2CEE); (0x2CF2, 0x2CF3); (0x2D00, 0x2D25); (0x2D27, 0x2D27); (0x2D2D, 0x2D2D); (0xA640, 0xA66D);
    (0xA680, 0xA69D); (0xA722, 0xA787); (0xA78B, 0xA78E); (0xA790, 0xA7CA); (0xA7D0, 0xA7D1); (0xA7D3, 0xA7D3);
    (0xA7D5, 0xA7D9); (0xA7F5, 0xA7F6); (0xA7F8, 0xA7FA); (0xAB30, 0xAB5A); (0xAB5C, 0xAB68); (0xAB70, 0xABBF);
    (0xFB00, 0xFB06); (0xFB13, 0xFB17); (0xFF21, 0xFF3A); (0xFF41, 0xFF5A); (0x10400, 0x1044F); (0x104B0, 0x104D3);
    (0x104D8, 0x104FB); (0x10570, 0x1057A); (0x1057C, 0x1058A); (0x1058C, 0x10592); (0x10594, 0x10595); (0x10597, 0x105A1);
    (0x105A3, 0x105B1); (0x105B3, 0x105B9); (0x105BB, 0x105BC); (0x10780, 0x10780); (0x10783, 0x10785); (0x10787, 0x107B0);
    (0x107B2, 0x107BA); (0x10C80, 0x10CB2); (0x10CC0, 0x10CF2); (0x118A0, 0x118DF); (0x16E40, 0x16E7F); (0x1D400, 0x1D454);
    (0x1D456, 0x1D49C); (0x1D49E, 0x1D49F); (0x1D4A2, 0x1D4A2); (0x1D4A5, 0x1D4A6); (0x1D4A9, 0x1D4AC); (0x1D4AE, 0x1D4B9);
    (0x1D4BB, 0x1D4BB); (0x1D4BD, 0x1D4C3); (0x1D4C5, 0x1D505); (0x1D507, 0x1D50A); (0x1D50D, 0x1D514); (0x1D516, 0x1D51C);
    (0x1D51E, 0x1D539); (0x1D53B, 0x1D53E); (0x1D540, 0x1D544); (0x1D546, 0x1D546); (0x1D54A, 0x1D550); (0x1D552, 0x1D6A5);
    (0x1D6A8, 0x1D6C0); (0x1D6C2, 0x1D6DA); (0x1D6DC, 0x1D6FA); (0x1D6FC, 0x1D714); (0x1D716, 0x1D734); (0x1D736, 0x1D74E);
    (0x1D750, 0x1D76E); (0x1D770, 0x1D788); (0x1D78A, 0x1D7A8); (0x1D7AA, 0x1D7C2); (0x1D7C4, 0x1D7CB); (0x1DF00, 0x1DF09);
    (0x1DF0B, 0x1DF1E); (0x1E900, 0x1E943); (0x1F130, 0x1F149); (0x1F150, 0x1F169); (0x1F170, 0x1F189)
].

(** Code points with the Case_Ignorable property, as inclusive ranges. *)
Definition case_ignorable_ranges : list (Z * Z) :=
[
    (0x27, 0x27); (0x2E, 0x2E); (0x3A, 0x3A); (0x5E, 0x5E); (0x60, 0x60); (0xA8, 0xA8);
    (0xAD, 0xAD); (0xAF, 0xAF); (0xB4, 0xB4); (0xB7, 0xB8); (0x2B0, 0x36F); (0x374, 0x375);
    (0x37A, 0x37A); (0x384, 0x385); (0x387, 0x387); (0x483, 0x489); (0x559, 0x559); (0x55F, 0x55F);
    (0x591, 0x5BD); (0x5BF, 0x5BF); (0x5C1, 0x5C2); (0x5C4, 0x5C5); (0x5C7, 0x5C7); (0x5F4, 0x5F4);
    (0x600, 0x605); (0x610, 0x61A); (0x61C, 0x61C); (0x640, 0x640); (0x64B, 0x65F); (0x670, 0x670);
    (0x6D6, 0x6DD); (0x6DF, 0x6E8); (0x6EA, 0x6ED); (0x70F, 0x70F); (0x711, 0x711); (0x730, 0x74A);
    (0x7A6, 0x7B0); (0x7EB, 0x7F5); (0x7FA, 0x7FA); (0x7FD, 0x7FD); (0x816, 0x82D); (0x859, 0x85B);
    (0x888, 0x888); (0x890, 0x891); (0x898, 0x89F); (0x8C9, 0x902); (0x93A, 0x93A); (0x93C, 0x93C);
    (0x941, 0x948); (0x94D, 0x94D); (0x951, 0x957); (0x962, 0x963); (0x971, 0x971); (0x981, 0x981);
    (0x9BC, 0x9BC); (0x9C1, 0x9C4); (0x9CD, 0x9CD); (0x9E2, 0x9E3); (0x9FE, 0x9FE); (0xA01, 0xA02);
    (0xA3C, 0xA3C); (0xA41, 0xA42); (0xA47, 0xA48); (0xA4B, 0xA4D); (0xA51, 0xA51); (0xA70, 0xA71);
    (0xA75, 0xA75); (0xA81, 0xA82); (0xABC, 0xABC); (0xAC1, 0xAC5); (0xAC7, 0xAC8); (0xACD, 0xACD);
    (0xAE2, 0xAE3); (0xAFA, 0xAFF); (0xB01, 0xB01); (0xB3C, 0xB3C); (0xB3F, 0xB3F); (0xB41, 0xB44);
    (0xB4D, 0xB4D); (0xB55, 0xB56); (0xB62, 0xB63); (0xB82, 0xB82); (0xBC0, 0xBC0); (0xBCD, 0xBCD);
    (0xC00, 0xC00); (0xC04, 0xC04); (0xC3C, 0xC3C); (0xC3E, 0xC40); (0xC46, 0xC48); (0xC4A, 0xC4D);
    (0xC55, 0xC56); (0xC62, 0xC63); (0xC81, 0xC81); (0xCBC, 0xCBC); (0xCBF, 0xCBF); (0xCC6, 0xCC6);
    (0xCCC, 0xCCD); (0xCE2, 0xCE3); (0xD00, 0xD01); (0xD3B, 0xD3C); (0xD41, 0xD44); (0xD4D, 0xD4D);
    (0xD62, 0xD63); (0xD81, 0xD81); (0xDCA, 0xDCA); (0xDD2, 0xDD4); (0xDD6, 0xDD6); (0xE31, 0xE31);
    (0xE34, 0xE3A); (0xE46, 0xE4E); (0xEB1, 0xEB1); (0xEB4, 0xEBC); (0xEC6, 0xEC6); (0xEC8, 0xECD);
    (0xF18, 0xF19); (0xF35, 0xF35); (0xF37, 0xF37); (0xF39, 0xF39); (0xF71, 0xF7E); (0xF80, 0xF84);
    (0xF86, 0xF87); (0xF8D, 0xF97); (0xF99, 0xFBC); (0xFC6, 0xFC6); (0x102D, 0x1030); (0x1032, 0x1037);
    (0x1039, 0x103A); (0x103D, 0x103E); (0x1058, 0x1059); (0x105E, 0x1060); (0x1071, 0x1074); (0x1082, 0x1082);
    (0x1085, 0x1086); (0x108D, 0x108D); (0x109D, 0x109D); (0x10FC, 0x10FC); (0x135D, 0x135F); (0x1712, 0x1714);
    (0x1732, 0x1733); (0x1752, 0x1753); (0x1772, 0x1773); (0x17B4, 0x17B5); (0x17B7, 0x17BD); (0x17C6, 0x17C6);
    (0x17C9, 0x17D3); (0x17D7, 0x17D7); (0x17DD, 0x17DD); (0x180B, 0x180F); (0x1843, 0x1843); (0x1885, 0x1886);
    (0x18A9, 0x18A9); (0x1920, 0x1922); (0x1927, 0x1928); (0x1932, 0x1932); (0x1939, 0x193B); (0x1A17, 0x1A18);
    (0x1A1B, 0x1A1B); (0x1A56, 0x1A56); (0x1A58, 0x1A5E); (0x1A60, 0x1A60); (0x1A62, 0x1A62); (0x1A65, 0x1A6C);
    (0x1A73, 0x1A7C); (0x1A7F, 0x1A7F); (0x1AA7, 0x1AA7); (0x1AB0, 0x1ACE); (0x1B00, 0x1B03); (0x1B34, 0x1B34);
    (0x1B36, 0x1B3A); (0x1B3C, 0x1B3C); (0x1B42, 0x1B42); (0x1B6B, 0x1B73); (0x1B80, 0x1B81); (0x1BA2, 0x1BA5);
    (0x1BA8, 0x1BA9); (0x1BAB, 0x1BAD); (0x1BE6, 0x1BE6); (0x1BE8, 0x1BE9); (0x1BED, 0x1BED); (0x1BEF, 0x1BF1);
    (0x1C2C, 0x1C33); (0x1C36, 0x1C37); (0x1C78, 0x1C7D); (0x1CD0, 0x1CD2); (0x1CD4, 0x1CE0); (0x1CE2, 0x1CE8);
    (0x1CED, 0x1CED); (0x1CF4, 0x1CF4); (0x1CF8, 0x1CF9); (0x1D2C, 0x1D6A); (0x1D78, 0x1D78); (0x1D9B, 0x1DFF);
    (0x1FBD, 0x1FBD); (0x1FBF, 0x1FC1); (0x1FCD, 0x1FCF); (0x1FDD, 0x1FDF); (0x1FED, 0x1FEF); (0x1FFD, 0x1FFE);
    (0x200B, 0x200F); (0x2018, 0x2019); (0x2024, 0x2024); (0x2027, 0x2027); (0x202A, 0x202E); (0x2060, 0x2064);
    (0x2066, 0x206F); (0x2071, 0x2071); (0x207F, 0x207F); (0x2090, 0x209C); (0x20D0, 0x20F0); (0x2C7C, 0x2C7D);
    (0x2CEF, 0x2CF1); (0x2D6F, 0x2D6F); (0x2D7F, 0x2D7F); (0x2DE0, 0x2DFF); (0x2E2F, 0x2E2F); (0x3005, 0x3005);
    (0x302A, 0x302D); (0x3031, 0x3035); (0x303B, 0x303B); (0x3099, 0x309E); (0x30FC, 0x30FE); (0xA015, 0xA015);
    (0xA4F8, 0xA4FD); (0xA60C, 0xA60C); (0xA66F, 0xA672); (0xA674, 0xA67D); (0xA67F, 0xA67F); (0xA69C, 0xA69F);
    (0xA6F0, 0xA6F1); (0xA700, 0xA721); (0xA770, 0xA770); (0xA788, 0xA78A); (0xA7F2, 0xA7F4); (0xA7F8, 0xA7F9);
    (0xA802, 0xA802); (0xA806, 0xA806); (0xA80B, 0xA80B); (0xA825, 0xA826); (0xA82C, 0xA82C); (0xA8C4, 0xA8C5);
    (0xA8E0, 0xA8F1); (0xA8FF, 0xA8FF); (0xA926, 0xA92D); (0xA947, 0xA951); (0xA980, 0xA982); (0xA9B3, 0xA9B3);
    (0xA9B6, 0xA9B9); (0xA9BC, 0xA9BD); (0xA9CF, 0xA9CF); (0xA9E5, 0xA9E6); (0xAA29, 0xAA2E); (0xAA31, 0xAA32);
    (0xAA35, 0xAA36); (0xAA43, 0xAA43); (0xAA4C, 0xAA4C); (0xAA70, 0xAA70); (0xAA7C, 0xAA7C); (0xAAB0, 0xAAB0);
    (0xAAB2, 0xAAB4); (0xAAB7, 0xAAB8); (0xAABE, 0xAABF); (0xAAC1, 0xAAC1); (0xAADD, 0xAADD); (0xAAEC, 0xAAED);
    (0xAAF3, 0xAAF4); (0xAAF6, 0xAAF6); (0xAB5B, 0xAB5F); (0xAB69, 0xAB6B); (0xABE5, 0xABE5); (0xABE8, 0xABE8);
    (0xABED, 0xABED); (0xFB1E, 0xFB1E); (0xFBB2, 0xFBC2); (0xFE00, 0xFE0F); (0xFE13, 0xFE13); (0xFE20, 0xFE2F);
    (0xFE52, 0xFE52); (0xFE55, 0xFE55); (0xFEFF, 0xFEFF); (0xFF07, 0xFF07); (0xFF0E, 0xFF0E); (0xFF1A, 0xFF1A);
    (0xFF3E, 0xFF3E); (0xFF40, 0xFF40); (0xFF70, 0xFF70); (0xFF9E, 0xFF9F); (0xFFE3, 0xFFE3); (0xFFF9, 0xFFFB);
    (0x101FD, 0x101FD); (0x102E0, 0x102E0); (0x10376, 0x1037A); (0x10780, 0x10785); (0x10787, 0x107B0); (0x107B2, 0x107BA);
    (0x10A01, 0x10A03); (0x10A05, 0x10A06); (0x10A0C, 0x10A0F); (0x10A38, 0x10A3A); (0x10A3F, 0x10A3F); (0x10AE5, 0x10AE6);
    (0x10D24, 0x10D27); (0x10EAB, 0x10EAC); (0x10F46, 0x10F50); (0x10F82, 0x10F85); (0x11001, 0x11001); (0x11038, 0x11046);
    (0x11070, 0x11070); (0x11073, 0x11074); (0x1107F, 0x11081); (0x110B3, 0x110B6); (0x110B9, 0x110BA); (0x110BD, 0x110BD);
    (0x110C2, 0x110C2); (0x110CD, 0x110CD); (0x11100, 0x11102); (0x11127, 0x1112B); (0x1112D, 0x11134); (0x11173, 0x11173);
    (0x11180, 0x11181); (0x111B6, 0x111BE); (0x111C9, 0x111CC); (0x111CF, 0x111CF); (0x1122F, 0x11231); (0x11234, 0x11234);
    (0x11236, 0x11237); (0x1123E, 0x1123E); (0x112DF, 0x112DF); (0x112E3, 0x112EA); (0x11300, 0x11301); (0x1133B, 0x1133C);
    (0x11340, 0x11340); (0x11366, 0x1136C); (0x11370, 0x11374); (0x11438, 0x1143F); (0x11442, 0x11444); (0x11446, 0x11446);
    (0x1145E, 0x1145E); (0x114B3, 0x114B8); (0x114BA, 0x114BA); (0x114BF, 0x114C0); (0x114C2, 0x114C3); (0x115B2, 0x115B5);
    (0x115BC, 0x115BD); (0x115BF, 0x115C0); (0x115DC, 0x115DD); (0x11633, 0x1163A); (0x1163D, 0x1163D); (0x1163F, 0x11640);
    (0x116AB, 0x116AB); (0x116AD, 0x116AD); (0x116B0, 0x116B5); (0x116B7, 0x116B7); (0x1171D, 0x1171F); (0x11722, 0x11725);
    (0x11727, 0x1172B); (0x1182F, 0x11837); (0x11839, 0x1183A); (0x1193B, 0x1193C); (0x1193E, 0x1193E); (0x11943, 0x11943);
    (0x119D4, 0x119D7); (0x119DA, 0x119DB); (0x119E0, 0x119E0); (0x11A01, 0x11A0A); (0x11A33, 0x11A38); (0x11A3B, 0x11A3E);
    (0x11A47, 0x11A47); (0x11A51, 0x11A56); (0x11A59, 0x11A5B); (0x11A8A, 0x11A96); (0x11A98, 0x11A99); (0x11C30, 0x11C36);
    (0x11C38, 0x11C3D); (0x11C3F, 0x11C3F); (0x11C92, 0x11CA7); (0x11CAA, 0x11CB0); (0x11CB2, 0x11CB3); (0x11CB5, 0x11CB6);
    (0x11D31, 0x11D36); (0x11D3A, 0x11D3A); (0x11D3C, 0x11D3D); (0x11D3F, 0x11D45); (0x11D47, 0x11D47); (0x11D90, 0x11D91);
    (0x11D95, 0x11D95); (0x11D97, 0x11D97); (0x11EF3, 0x11EF4); (0x13430, 0x13438); (0x16AF0, 0x16AF4); (0x16B30, 0x16B36);
    (0x16B40, 0x16B43); (0x16F4F, 0x16F4F); (0x16F8F, 0x16F9F); (0x16FE0, 0x16FE1); (0x16FE3, 0x16FE4); (0x1AFF0, 0x1AFF3);
    (0x1AFF5, 0x1AFFB); (0x1AFFD, 0x1AFFE); (0x1BC9D, 0x1BC9E); (0x1BCA0, 0x1BCA3); (0x1CF00, 0x1CF2D); (0x1CF30, 0x1CF46);
    (0x1D167, 0x1D169); (0x1D173, 0x1D182); (0x1D185, 0x1D18B); (0x1D1AA, 0x1D1AD); (0x1D242, 0x1D244); (0x1DA00, 0x1DA36);
    (0x1DA3B, 0x1DA6C); (0x1DA75, 0x1DA75); (0x1DA84, 0x1DA84); (0x1DA9B, 0x1DA9F); (0x1DAA1, 0x1DAAF); (0x1E000, 0x1E006);
    (0x1E008, 0x1E018); (0x1E01B, 0x1E021); (0x1E023, 0x1E024); (0x1E026, 0x1E02A); (0x1E130, 0x1E13D); (0x1E2AE, 0x1E2AE);
    (0x1E2EC, 0x1E2EF); (0x1E8D0, 0x1E8D6); (0x1E944, 0x1E94B); (0x1F3FB, 0x1F3FF); (0xE0001, 0xE0001); (0xE0020, 0xE007F);
    (0xE0100, 0xE01EF)
].

End UCD.

(** ** Python strings *)

Definition str := list Z.

(** The code points of an ASCII literal. *)
Definition u (s : string) : str :=
  map (fun a => Z.of_N (N_of_ascii a)) (list_ascii_of_string s).

Fixpoint str_eqb (a b : str) : bool :=
  match a, b with
  | [], [] => true
  | x :: a', y :: b' => (x =? y) && str_eqb a' b'
  | _, _ => false
  end.

(** [x in xs] for a list or set of strings. *)
Definition str_in (x : str) (xs : list str) : bool := existsb (str_eqb x) xs.

Definition isspace (c : Z) : bool := existsb (Z.eqb c) UCD.whitespace.

Definition is_line_boundary (c : Z) : bool :=
  existsb (Z.eqb c) UCD.line_boundaries.

Definition in_ranges (c : Z) (rs : list (Z * Z)) : bool :=
  existsb (fun r => (fst r <=? c) && (c <=? snd r)) rs.

Definition is_cased (c : Z) : bool := in_ranges c UCD.cased_ranges.

Definition is_case_ignorable (c : Z) : bool :=
  in_ranges c UCD.case_ignorable_ranges.

Definition in_run (c : Z) (r : Z * Z * Z * Z) : bool :=
  let '(lo, hi, stride, _) := r in
  (lo <=? c) && (c <=? hi) && ((c - lo) mod stride =? 0).

Definition run_delta (r : Z * Z * Z * Z) : Z := snd r.

(** The simple lower-case mapping of one code point. *)
Definition to_lower (c : Z) : Z :=
  match find (in_run c) UCD.lowercase_runs with
  | Some r => c + run_delta r
  | None => c
  end.

Definition CAPITAL_I_DOT : Z := 0x130.
Definition CAPITAL_SIGMA : Z := 0x3A3.
Definition SMALL_SIGMA : Z := 0x3C3.
Definition FINAL_SIGMA : Z := 0x3C2.

(** The full lower-case mapping: U+0130 is the one code point whose
    lower case is two code points long. *)
Definition to_lower_full (c : Z) : list Z :=
  if c =? CAPITAL_I_DOT then [0x69; 0x307] else [to_lower c].

Fixpoint dropwhile (p : Z -> bool) (s : str) : str :=
  match s with
  | [] => []
  | c :: s' => if p c then dropwhile p s' else s
  end.

(** A capital sigma is in final position when a cased letter precedes it
    and none follows, case-ignorable code points being skipped on both
    sides.  [before] lists the preceding code points nearest first. *)
Definition final_sigma (before after : str) : bool :=
  match dropwhile is_case_ignorable before with
  | [] => false
  | c :: _ =>
      is_cased c &&
      match dropwhile is_case_ignorable after with
      | [] => true
      | d :: _ => negb (is_cased d)
      end
  end.

Definition lower_at (before : str) (c : Z) (after : str) : list Z :=
  if c =? CAPITAL_SIGMA
  then [if final_sigma before after then FINAL_SIGMA else SMALL_SIGMA]
  else to_lower_full c.

Fixpoint lower_from (before : str) (s : str) : str :=
  match s with
  | [] => []
  | c :: s' => lower_at before c s' ++ lower_from (c :: before) s'
  end.

(** [s.lower()] *)
Definition lower (s : str) : str := lower_from [] s.

Definition lstrip (s : str) : str := dropwhile isspace s.

Fixpoint rstrip (s : str) : str :=
  match s with
  | [] => []
  | c :: s' =>
      match rstrip s' with
      | [] => if isspace c then [] else [c]
      | r => c :: r
      end
  end.

(** [s.strip()] *)
Definition strip (s : str) : str := rstrip (lstrip s).

(** [re.sub(r"\s+", " ", s)]: every maximal run of whitespace becomes one
    space.  [in_ws] tells that the run the scan is in has been replaced. *)
Fixpoint sub_ws (in_ws : bool) (s : str) : str :=
  match s with
  | [] => []
  | c :: s' =>
      if isspace c
      then if in_ws then sub_ws true s' else 0x20 :: sub_ws true s'
      else c :: sub_ws false s'
  end.

Definition re_sub_ws (s : str) : str := sub_ws false s.

(** [s.split()]: the maximal runs of non-whitespace.  [cur] holds the
    current word, last code point first. *)
Fixpoint split_from (cur : str) (s : str) : list str :=
  match s with
  | [] => match cur with [] => [] | _ => [rev cur] end
  | c :: s' =>
      if isspace c
      then match cur with
           | [] => split_from [] s'
           | _ => rev cur :: split_from [] s'
           end
      else split_from (c :: cur) s'
  end.

Definition split (s : str) : list str := split_from [] s.

(** [s.splitlines()]: a carriage return directly followed by a line feed
    is one boundary, and a final boundary opens no empty last line.
    [after_cr] tells that the previous code point was a carriage return
    that closed a line. *)
Fixpoint splitlines_from (after_cr : bool) (cur : str) (s : str) : list str :=
  match s with
  | [] => match cur with [] => [] | _ => [rev cur] end
  | c :: s' =>
      if after_cr && (c =? 0x0A) then splitlines_from false cur s'
      else if is_line_boundary c
           then rev cur :: splitlines_from (c =? 0x0D) [] s'
           else splitlines_from false (c :: cur) s'
  end.

Definition splitlines (s : str) : list str := splitlines_from false [] s.

Fixpoint startswith (p s : str) : bool :=
  match p, s with
  | [], _ => true
  | _ :: _, [] => false
  | a :: p', b :: s' => (a =? b) && startswith p' s'
  end.

(** [sub in s] *)
Fixpoint contains (sub s : str) : bool :=
  startswith sub s ||
  match s with
  | [] => false
  | _ :: s' => contains sub s'
  end.

(** ** Exceptions and effects *)

(** A raised exception, given by the name of its class followed by the
    names of the classes it derives from.  [except C] catches it when [C]
    is among them. *)
Record exn := { exn_classes : list string }.

Definition isinstance (e : exn) (cls : string) : bool :=
  existsb (String.eqb cls) (exn_classes e).

Definition IndexError : exn :=
  {| exn_classes := ["IndexError"; "LookupError"; "Exception"; "BaseException"]%string |}.

Definition KeyError : exn :=
  {| exn_classes := ["KeyError"; "LookupError"; "Exception"; "BaseException"]%string |}.

(** How the evaluation of an expression ends. *)
Inductive outcome (A : Type) : Type :=
| Return (a : A)
| Raise (e : exn).
Arguments Return {A} a.
Arguments Raise {A} e.

(** What the program reads off the object [client.chat.complete] returns:
    the value of [r.choices[0].message.content], or the exception that
    reading it raises. *)
Definition response := outcome str.

(** Computations that may call the hosted model.  [ChatComplete p j k]
    calls [client.chat.complete] on the single user message [p], with the
    JSON response format when [j] holds, and goes on as [k] with what the
    call returns or raises. *)
Inductive io (A : Type) : Type :=
| Done (o : outcome A)
| ChatComplete (prompt : str) (json_format : bool) (k : outcome response -> io A).
Arguments Done {A} o.
Arguments ChatComplete {A} prompt json_format k.

Fixpoint bind {A B : Type} (m : io A) (f : A -> io B) : io B :=
  match m with
  | Done (Return a) => f a
  | Done (Raise e) => Done (Raise e)
  | ChatComplete p j k => ChatComplete p j (fun o => bind (k o) f)
  end.

Notation "x <- m ;; k" := (bind m (fun x => k))
  (at level 61, m at next level, right associativity).

(** [try: m  except cls: handler] *)
Fixpoint try_except {A : Type} (m : io A) (cls : string) (handler : io A) : io A :=
  match m with
  | Done (Return a) => Done (Return a)
  | Done (Raise e) => if isinstance e cls then handler else Done (Raise e)
  | ChatComplete p j k => ChatComplete p j (fun o => try_except (k o) cls handler)
  end.

(** One request to the model: the prompt and whether JSON was asked for. *)
Definition call := (str * bool)%type.

(** The hosted model, as seen from the program: what a request returns
    or raises, given the requests made so far. *)
Definition service := list call -> call -> outcome response.

(** Running a computation against a service; the requests made are
    added to the log in order. *)
Fixpoint run {A : Type} (svc : service) (log : list call) (m : io A)
  : outcome A * list call :=
  match m with
  | Done o => (o, log)
  | ChatComplete p j k => run svc (log ++ [(p, j)]) (k (svc log (p, j)))
  end.

(** ** The program *)

Definition chat_complete (prompt : str) (json_format : bool) : io response :=
  ChatComplete prompt json_format (fun o => Done o).

Definition mistral_chat (prompt : str) (is_json : bool) : io str :=
  r <- try_except (chat_complete prompt is_json) "TypeError"
                  (chat_complete prompt false) ;;
  Done r.

Definition ALLOWED_CATEGORIES : list str :=
  map u [ "card arrival"; "change pin"; "exchange rate"; "country support";
          "cancel transfer"; "charge dispute"; "customer service" ]%string.

Definition NL : Z := 0x0A.

(** The text made of the given lines, each closed by a line feed. *)
Definition unlines (ls : list string) : str :=
  flat_map (fun l => u l ++ [NL]) ls.

(** [CLASSIFY_PROMPT.format(q=q)] *)
Definition CLASSIFY_PROMPT (q : str) : str :=
  unlines [ "";
            "You are a bank customer service bot.";
            "Classify the bank inquiry into ONE category only:";
            "card arrival";
            "change pin";
            "exchange rate";
            "country support";
            "cancel transfer";
            "charge dispute";
            "customer service";
            "";
            "Return ONLY the category text. No explanations.";
            "" ]%string
  ++ u "Inquiry: " ++ q ++ [NL]
  ++ unlines [ "Category:" ]%string.

Definition KB : list (str * str) :=
  map (fun kv => (u (fst kv), u (snd kv)))
  [ ("card arrival", "Track delivery in Cards > Track delivery. Request replacement if overdue.");
    ("change pin", "Go to Cards > Manage card > Change PIN.");
    ("exchange rate", "Exchange rate depends on network rate plus bank fee. Tell me the currencies.");
    ("country support", "Most countries are supported. Tell me your destination.");
    ("cancel transfer", "If pending, cancel in Transfers > Activity.");
    ("charge dispute", "Open transaction > Dispute charge. Provide date, merchant, and reason.");
    ("customer service", "Tell me your issue and I will guide you.") ]%string.

Definition KB_lookup (key : str) : option str :=
  option_map snd (find (fun kv => str_eqb (fst kv) key) KB).

(** [KB[key]] *)
Definition KB_getitem (key : str) : outcome str :=
  match KB_lookup key with
  | Some v => Return v
  | None => Raise KeyError
  end.

(** [KB.get(key, default)] *)
Definition KB_get (key default : str) : str :=
  match KB_lookup key with
  | Some v => v
  | None => default
  end.

Definition GREETINGS : list str :=
  map u [ "hi"; "hello"; "hey"; "yo"; "good morning"; "good afternoon";
          "good evening" ]%string.

Definition normalize_text (s : str) : str := re_sub_ws (lower (strip s)).

(** [r.splitlines()[0].strip()] *)
Definition first_line (r : str) : outcome str :=
  match splitlines r with
  | [] => Raise IndexError
  | l :: _ => Return (strip l)
  end.

Definition parse_category (raw : str) : outcome str :=
  let r := normalize_text raw in
  match first_line r with
  | Raise e => Raise e
  | Return first_line =>
      if str_in first_line ALLOWED_CATEGORIES then Return first_line
      else match find (fun cat => contains cat r) ALLOWED_CATEGORIES with
           | Some cat => Return cat
           | None => Return (u "customer service")
           end
  end.

Definition classify_intent (inquiry : str) : io str :=
  let q := normalize_text inquiry in
  if (List.length (split q) <=? 2)%nat || str_in q GREETINGS
  then Done (Return (u "customer service"))
  else try_except
         (raw <- mistral_chat (CLASSIFY_PROMPT inquiry) false ;;
          Done (parse_category raw))
         "Exception"
         (Done (Return (u "customer service"))).

(** *** Session state and the send handler *)

Inductive speaker : Type := user | assistant.

(** One item of the chat history; [cat] is absent on user turns. *)
Record turn := { role : speaker; text : str; cat : option str }.

Record session_state := {
  chat_history : list turn;
  pending_text : str;
  draft_version : Z
}.

Definition bump_draft (st : session_state) : session_state :=
  {| chat_history := chat_history st;
     pending_text := pending_text st;
     draft_version := draft_version st + 1 |}.

Definition append_turn (t : turn) (st : session_state) : session_state :=
  {| chat_history := chat_history st ++ [t];
     pending_text := pending_text st;
     draft_version := draft_version st |}.

(** The prompt of the answering call, for a guidance text and an inquiry. *)
Definition ANSWER_PROMPT (guidance inquiry : str) : str :=
  unlines [ "";
            "You are a helpful bank support assistant.";
            "Answer using ONLY the guidance below.";
            "Keep it short and clear.";
            "";
            "Guidance:" ]%string
  ++ guidance ++ [NL]
  ++ unlines [ ""; "Customer question:" ]%string
  ++ inquiry ++ [NL]
  ++ unlines [ ""; "Answer:" ]%string.

(** The answering part of the send handler: the guidance of the
    category, the prompt, and the call with its fallback. *)
Definition compose (cat inquiry : str) : io str :=
  dflt <- Done (KB_getitem (u "customer service")) ;;
  let guidance := KB_get cat dflt in
  let prompt := ANSWER_PROMPT guidance inquiry in
  try_except
    (s <- mistral_chat prompt false ;; Done (Return (strip s)))
    "Exception"
    (Done (Return guidance)).

(** Truth value of a string: it is not empty. *)
Definition truthy (s : str) : bool :=
  match s with [] => false | _ :: _ => true end.

(** The body run on a press of Send ([send] holds) with [msg] in the
    message box. *)
Definition send_handler (send : bool) (msg : str) (st : session_state)
  : io session_state :=
  if send && truthy (strip msg)
  then
    let inquiry := strip msg in
    cat <- classify_intent inquiry ;;
    answer <- compose cat inquiry ;;
    let st1 := append_turn {| role := user; text := inquiry; cat := None |} st in
    let st2 := append_turn {| role := assistant; text := answer; cat := Some cat |} st1 in
    Done (Return (bump_draft st2))
  else Done (Return st).

(** *** The other session operations *)

(** The callback of an example button. *)
Definition choose_example (txt : str) (st : session_state) : session_state :=
  bump_draft {| chat_history := chat_history st;
                pending_text := txt;
                draft_version := draft_version st |}.

(** The body run on a press of Clear. *)
Definition clear_chat (st : session_state) : session_state :=
  bump_draft {| chat_history := [];
                pending_text := pending_text st;
                draft_version := draft_version st |}.

(** Handing the pending text to the message box: the default value of
    the box, and the state with the pending text used up. *)
Definition take_pending (st : session_state) : str * session_state :=
  (pending_text st,
   if truthy (pending_text st)
   then {| chat_history := chat_history st;
           pending_text := [];
           draft_version := draft_version st |}
   else st).

(** What can happen to a session, and what the program does then. *)
Inductive event : Type :=
| ExamplePicked (txt : str)
| BoxDrawn
| ClearPressed
| SendPressed (msg : str).

Definition handle (ev : event) (st : session_state) : io session_state :=
  match ev with
  | ExamplePicked txt => Done (Return (choose_example txt st))
  | BoxDrawn => Done (Return (snd (take_pending st)))
  | ClearPressed => Done (Return (clear_chat st))
  | SendPressed msg => send_handler true msg st
  end.

Fixpoint handle_all (evs : list event) (st : session_state) : io session_state :=
  match evs with
  | [] => Done (Return st)
  | ev :: evs' => st' <- handle ev st ;; handle_all evs' st'
  end.

(** *** Cleaning a JSON answer *)

(** [s.replace(old, new)] for a non-empty [old]: the occurrences are
    taken from left to right and do not overlap.  [skip] counts the code
    points of the occurrence just replaced that are still to be passed. *)
Fixpoint replace_from (skip : nat) (old new s : str) : str :=
  match s with
  | [] => []
  | c :: s' =>
      match skip with
      | S k => replace_from k old new s'
      | O =>
          if startswith old s
          then new ++ replace_from (Nat.pred (List.length old)) old new s'
          else c :: replace_from O old new s'
      end
  end.

(** [s.replace(old, new)]; an empty [old] matches before every code
    point and at the end. *)
Definition replace (old new s : str) : str :=
  match old with
  | [] => new ++ flat_map (fun c => c :: new) s
  | _ :: _ => replace_from O old new s
  end.

Definition clean_json (txt : str) : str :=
  strip (replace (u "```") [] (replace (u "```json") [] txt)).

(** *** The API key *)

(** What [get_api_key] reads of its surroundings: the outcome of testing
    for the key in [st.secrets], the outcome of reading the key there as
    text, and the environment variable when it is set. *)
Record key_sources := {
  secrets_has_key : outcome bool;
  secrets_key_text : outcome str;
  environ_key : option str
}.

Definition get_api_key (src : key_sources) : outcome str :=
  let from_environ :=
    Return (strip match environ_key src with Some v => v | None => [] end) in
  match secrets_has_key src with
  | Return true =>
      match secrets_key_text src with
      | Return v => Return (strip v)
      | Raise e => if isinstance e "Exception" then from_environ else Raise e
      end
  | Return false => from_environ
  | Raise e => if isinstance e "Exception" then from_environ else Raise e
  end.

(** How the start of the script ends: stopped with the missing-key
    message, or going on with the key. *)
Inductive startup : Type :=
| Stopped
| Started (api_key : str).

Definition start_app (src : key_sources) : outcome startup :=
  match get_api_key src with
  | Return k => Return (if truthy k then Started k else Stopped)
  | Raise e => Raise e
  end.

(** ** Notions used in the statements and proofs *)

(** A string with no code point in it but whitespace. *)
Definition blank (s : str) : bool := forallb isspace s.

(** Code points that [lower] leaves alone wherever they stand. *)
Definition stableb (c : Z) : bool :=
  negb (c =? CAPITAL_SIGMA) && negb (c =? CAPITAL_I_DOT) && (to_lower c =? c).

(** The code points of a run of the lower-case table. *)
Definition run_points (r : Z * Z * Z * Z) : list Z :=
  let '(lo, hi, stride, _) := r in
  map (fun k => lo + stride * Z.of_nat k)
      (seq 0 (S (Z.to_nat ((hi - lo) / stride)))).

(** A run is sound when its stride is positive and the image of each of
    its points is a stable code point that is not whitespace. *)
Definition run_ok (r : Z * Z * Z * Z) : bool :=
  let '(_, _, stride, delta) := r in
  (0 <? stride) &&
  forallb (fun c => stableb (c + delta) && negb (isspace (c + delta)))
          (run_points r).

Definition starts_clean (s : str) : bool :=
  match s with
  | [] => true
  | c :: _ => negb (isspace c)
  end.

Fixpoint ends_clean (s : str) : bool :=
  match s with
  | [] => true
  | c :: s' =>
      match s' with
      | [] => negb (isspace c)
      | _ :: _ => ends_clean s'
      end
  end.

(** Every whitespace code point is a space, none follows another, and
    the last code point is not one.  [prev_ws] tells that the code point
    before [s] was whitespace. *)
Fixpoint tidy (prev_ws : bool) (s : str) : bool :=
  match s with
  | [] => negb prev_ws
  | c :: s' =>
      if isspace c
      then (c =? 0x20) && negb prev_ws && tidy true s'
      else tidy false s'
  end.

(** The shape of normalised text. *)
Definition normal (s : str) : bool :=
  starts_clean s && tidy false s && forallb stableb s.

(** The one-line reading of category matching: the whole normalised
    response is compared with the categories, then searched. *)
Definition parse_category_simple (raw : str) : str :=
  let r := normalize_text raw in
  if str_in r ALLOWED_CATEGORIES then r
  else match find (fun cat => contains cat r) ALLOWED_CATEGORIES with
       | Some cat => cat
       | None => u "customer service"
       end.

(** A service that raises nothing but instances of [Exception], from
    the call itself or when the content of its response is read. *)
Definition raises_errors_only (svc : service) : Prop :=
  forall (log : list call) (c : call) (e : exn),
    svc log c = Raise e \/ svc log c = Return (Raise e) ->
    isinstance e "Exception" = true.

(** [sep.join(words)] *)
Fixpoint join (sep : str) (words : list str) : str :=
  match words with
  | [] => []
  | w :: rest =>
      w ++ match rest with
           | [] => []
           | _ :: _ => sep ++ join sep rest
           end
  end.

(** The number of words [split] finds; [in_word] tells that a word is
    open when the scan reaches [s]. *)
Fixpoint wcount (in_word : bool) (s : str) : nat :=
  match s with
  | [] => if in_word then 1%nat else 0%nat
  | c :: s' =>
      if isspace c
      then ((if in_word then 1 else 0) + wcount false s')%nat
      else wcount true s'
  end.

(** The search of [parse_category] alone: the earliest listed category
    that occurs in [r], or the fallback category. *)
Definition scan_categories (r : str) : str :=
  match find (fun c => contains c r) ALLOWED_CATEGORIES with
  | Some c => c
  | None => u "customer service"
  end.

(** What [mistral_chat] makes of the outcome of a request. *)
Definition content_of (o : outcome response) : outcome str :=
  match o with
  | Return r => r
  | Raise e => Raise e
  end.

(** A chat history made of exchanges: a user turn whose text is not
    empty and has no whitespace at its ends, then an assistant turn that
    carries an allowed category. *)
Fixpoint exchanges (h : list turn) : Prop :=
  match h with
  | [] => True
  | q :: [] => False
  | q :: a :: rest =>
      role q = user /\ cat q = None /\ text q <> [] /\ strip (text q) = text q /\
      role a = assistant /\
      (exists c, cat a = Some c /\ In c ALLOWED_CATEGORIES) /\
      exchanges rest
  end.

Definition BACKTICK : Z := 0x60.

(** The number of backticks [s] starts with. *)
Fixpoint lead_ticks (s : str) : nat :=
  match s with
  | [] => 0%nat
  | c :: s' => if c =? BACKTICK then S (lead_ticks s') else 0%nat
  end.

(** * Properties *)

(** ** Strings and character data *)

Lemma str_eqb_eq (a b : str) : str_eqb a b = true <-> a = b.
Proof.
  revert b. induction a as [|x a IH]; intros [|y b]; cbn [str_eqb];
    try (split; [discriminate | discriminate]); try tauto.
  rewrite andb_true_iff, Z.eqb_eq, IH. split.
  - intros [-> ->]. reflexivity.
  - intros H. inversion H. auto.
Qed.

Lemma str_in_In (x : str) (xs : list str) : str_in x xs = true <-> In x xs.
Proof.
  unfold str_in. rewrite existsb_exists. split.
  - intros [y [Hy E]]. apply str_eqb_eq in E. subst. exact Hy.
  - intros H. exists x. split; [exact H | apply str_eqb_eq; reflexivity].
Qed.

Lemma str_in_not_In (x : str) (xs : list str) : str_in x xs = false <-> ~ In x xs.
Proof.
  rewrite <- str_in_In. destruct (str_in x xs); split; intros H;
    try reflexivity; try discriminate; try (intros E; discriminate).
  exfalso. apply H. reflexivity.
Qed.

Lemma isspace_In (c : Z) : isspace c = true <-> In c UCD.whitespace.
Proof.
  unfold isspace. rewrite existsb_exists. split.
  - intros [w [Hw E]]. apply Z.eqb_eq in E. subst. exact Hw.
  - intros H. exists c. split; [exact H | apply Z.eqb_refl].
Qed.

Lemma is_line_boundary_In (c : Z) :
  is_line_boundary c = true <-> In c UCD.line_boundaries.
Proof.
  unfold is_line_boundary. rewrite existsb_exists. split.
  - intros [w [Hw E]]. apply Z.eqb_eq in E. subst. exact Hw.
  - intros H. exists c. split; [exact H | apply Z.eqb_refl].
Qed.

(** Whitespace has no lower-case mapping. *)
Lemma isspace_stable (c : Z) : isspace c = true -> stableb c = true.
Proof.
  intros H. apply isspace_In in H.
  assert (A : forallb stableb UCD.whitespace = true) by (vm_compute; reflexivity).
  rewrite forallb_forall in A. apply A, H.
Qed.

(** Every line boundary is a whitespace code point other than the space. *)
Lemma line_boundary_space (c : Z) :
  is_line_boundary c = true -> isspace c = true /\ c <> 0x20.
Proof.
  intros H. apply is_line_boundary_In in H.
  assert (A : forallb (fun d => isspace d && negb (d =? 0x20)) UCD.line_boundaries = true)
    by (vm_compute; reflexivity).
  rewrite forallb_forall in A. apply A in H.
  apply andb_true_iff in H. destruct H as [H1 H2]. split; [exact H1|].
  apply negb_true_iff, Z.eqb_neq in H2. exact H2.
Qed.

Lemma in_run_points (c : Z) (r : Z * Z * Z * Z) :
  0 < snd (fst r) -> in_run c r = true -> In c (run_points r).
Proof.
  destruct r as [[[lo hi] stride] delta]. cbn [fst snd in_run run_points].
  intros Hs H. apply andb_true_iff in H. destruct H as [H Hm].
  apply andb_true_iff in H. destruct H as [Hlo Hhi].
  apply Z.leb_le in Hlo, Hhi. apply Z.eqb_eq in Hm.
  apply in_map_iff. exists (Z.to_nat ((c - lo) / stride)). split.
  - assert (0 <= (c - lo) / stride) by (apply Z.div_pos; lia).
    rewrite Z2Nat.id by assumption.
    pose proof (Z.div_mod (c - lo) stride ltac:(lia)) as D. lia.
  - apply in_seq. split; [lia|].
    assert ((c - lo) / stride <= (hi - lo) / stride)
      by (apply Z.div_le_mono; lia).
    assert (0 <= (c - lo) / stride) by (apply Z.div_pos; lia).
    lia.
Qed.

Lemma lowercase_runs_ok : forallb run_ok UCD.lowercase_runs = true.
Proof. vm_compute. reflexivity. Qed.

(** The image of a code point that has a lower-case mapping is stable
    and is not whitespace. *)
Lemma to_lower_mapped (c : Z) (r : Z * Z * Z * Z) :
  find (in_run c) UCD.lowercase_runs = Some r ->
  stableb (c + run_delta r) = true /\ isspace (c + run_delta r) = false.
Proof.
  intros F. apply find_some in F. destruct F as [Hr Hc].
  pose proof lowercase_runs_ok as A. rewrite forallb_forall in A.
  specialize (A r Hr). destruct r as [[[lo hi] stride] delta].
  cbn [run_ok] in A. apply andb_true_iff in A. destruct A as [Hs A].
  apply Z.ltb_lt in Hs. rewrite forallb_forall in A.
  specialize (A c (in_run_points c (lo, hi, stride, delta) Hs Hc)).
  apply andb_true_iff in A. destruct A as [A1 A2].
  apply negb_true_iff in A2. cbn [run_delta snd]. auto.
Qed.

(** ** Lower-casing *)

Lemma stableb_lower_at (b : str) (c : Z) (a : str) :
  stableb c = true -> lower_at b c a = [c].
Proof.
  unfold stableb, lower_at, to_lower_full. intros H.
  apply andb_true_iff in H. destruct H as [H H3].
  apply andb_true_iff in H. destruct H as [H1 H2].
  apply negb_true_iff in H1, H2. apply Z.eqb_eq in H3.
  rewrite H1, H2, H3. reflexivity.
Qed.

Lemma lower_at_image (b : str) (c : Z) (a : str) (d : Z) :
  In d (lower_at b c a) ->
  stableb d = true /\ (isspace c = false -> isspace d = false).
Proof.
  unfold lower_at. destruct (c =? CAPITAL_SIGMA) eqn:Es.
  - intros [<-|[]].
    destruct (final_sigma b a); split; try (intros _); vm_compute; reflexivity.
  - unfold to_lower_full. destruct (c =? CAPITAL_I_DOT) eqn:Ei.
    + intros [<-|[<-|[]]]; split; try (intros _); vm_compute; reflexivity.
    + intros [<-|[]]. unfold to_lower.
      destruct (find (in_run c) UCD.lowercase_runs) as [r|] eqn:F.
      * apply to_lower_mapped in F. destruct F as [F1 F2]. auto.
      * split; [|auto]. unfold stableb, to_lower.
        rewrite Es, Ei, F, Z.eqb_refl. reflexivity.
Qed.

Lemma lower_at_nonempty (b : str) (c : Z) (a : str) : lower_at b c a <> [].
Proof.
  unfold lower_at, to_lower_full.
  destruct (c =? CAPITAL_SIGMA); [discriminate|].
  destruct (c =? CAPITAL_I_DOT); discriminate.
Qed.

Lemma lower_from_stable (s : str) :
  forall b, forallb stableb s = true -> lower_from b s = s.
Proof.
  induction s as [|c s IH]; intros b H; cbn [lower_from]; [reflexivity|].
  cbn [forallb] in H. apply andb_true_iff in H. destruct H as [Hc Hs].
  rewrite (stableb_lower_at b c s Hc), (IH (c :: b) Hs). reflexivity.
Qed.

Lemma lower_from_all_stable (s : str) :
  forall b, forallb stableb (lower_from b s) = true.
Proof.
  induction s as [|c s IH]; intros b; cbn [lower_from]; [reflexivity|].
  rewrite forallb_app, IH, andb_true_r.
  apply forallb_forall. intros d Hd.
  apply (lower_at_image b c s d Hd).
Qed.

Lemma lower_from_nil (s : str) (b : str) : lower_from b s = [] -> s = [].
Proof.
  destruct s as [|c s]; [reflexivity|]. cbn [lower_from]. intros H.
  apply app_eq_nil in H. destruct H as [H _].
  exfalso. exact (lower_at_nonempty b c s H).
Qed.

Lemma lower_from_starts_clean (s : str) (b : str) :
  starts_clean s = true -> starts_clean (lower_from b s) = true.
Proof.
  destruct s as [|c s]; [reflexivity|]. cbn [lower_from starts_clean].
  intros Hc. apply negb_true_iff in Hc.
  pose proof (lower_at_nonempty b c s) as Hne.
  pose proof (lower_at_image b c s) as Him.
  destruct (lower_at b c s) as [|d l]; [congruence|].
  cbn [app]. apply negb_true_iff.
  apply (Him d (or_introl eq_refl)), Hc.
Qed.

Lemma ends_clean_app (x y : str) :
  y <> [] -> ends_clean (x ++ y) = ends_clean y.
Proof.
  intros Hy. induction x as [|c x IH]; [reflexivity|].
  cbn [app ends_clean]. destruct (x ++ y) eqn:E; [|exact IH].
  apply app_eq_nil in E. destruct E. congruence.
Qed.

Lemma ends_clean_no_space (x : str) :
  forallb (fun d => negb (isspace d)) x = true -> ends_clean x = true.
Proof.
  induction x as [|c x IH]; [reflexivity|]. cbn [forallb ends_clean].
  intros H. apply andb_true_iff in H. destruct H as [Hc Hx].
  destruct x; [exact Hc | exact (IH Hx)].
Qed.

Lemma lower_from_ends_clean (s : str) :
  forall b, ends_clean s = true -> ends_clean (lower_from b s) = true.
Proof.
  induction s as [|c s IH]; intros b H; [reflexivity|].
  cbn [lower_from]. destruct s as [|c' s].
  - cbn [ends_clean] in H. apply negb_true_iff in H.
    cbn [lower_from]. rewrite app_nil_r.
    apply ends_clean_no_space, forallb_forall. intros d Hd.
    apply negb_true_iff. apply (lower_at_image b c [] d Hd), H.
  - rewrite ends_clean_app.
    + apply IH. exact H.
    + intros E. apply lower_from_nil in E. discriminate.
Qed.

(** ** Stripping *)

Lemma lstrip_starts_clean (s : str) : starts_clean (lstrip s) = true.
Proof.
  unfold lstrip. induction s as [|c s IH]; [reflexivity|].
  cbn [dropwhile]. destruct (isspace c) eqn:E; [exact IH|].
  cbn [starts_clean]. rewrite E. reflexivity.
Qed.

Lemma lstrip_id (s : str) : starts_clean s = true -> lstrip s = s.
Proof.
  destruct s as [|c s]; [reflexivity|]. cbn [starts_clean]. intros H.
  apply negb_true_iff in H. unfold lstrip. cbn [dropwhile]. rewrite H.
  reflexivity.
Qed.

Lemma lstrip_nil (s : str) : lstrip s = [] <-> blank s = true.
Proof.
  unfold lstrip, blank. induction s as [|c s IH]; [tauto|].
  cbn [dropwhile forallb]. destruct (isspace c); cbn [andb];
    [exact IH | split; discriminate].
Qed.

Lemma rstrip_nil (s : str) : rstrip s = [] <-> blank s = true.
Proof.
  unfold blank. induction s as [|c s IH]; [cbn; tauto|].
  cbn [rstrip forallb]. destruct (rstrip s) eqn:R.
  - destruct (isspace c); cbn [andb].
    + split; intros _; [apply IH|]; reflexivity.
    + split; discriminate.
  - split; [discriminate|]. intros H.
    apply andb_true_iff in H. destruct H as [_ H].
    apply IH in H. discriminate.
Qed.

Lemma rstrip_starts_clean (s : str) :
  starts_clean s = true -> starts_clean (rstrip s) = true.
Proof.
  destruct s as [|c s]; [reflexivity|]. cbn [starts_clean rstrip]. intros H.
  destruct (rstrip s); [|exact H].
  apply negb_true_iff in H. rewrite H. cbn [starts_clean].
  rewrite H. reflexivity.
Qed.

Lemma rstrip_ends_clean (s : str) : ends_clean (rstrip s) = true.
Proof.
  induction s as [|c s IH]; [reflexivity|]. cbn [rstrip].
  destruct (rstrip s) as [|d r].
  - destruct (isspace c) eqn:E; [reflexivity|].
    cbn [ends_clean]. rewrite E. reflexivity.
  - exact IH.
Qed.

Lemma rstrip_id (s : str) : ends_clean s = true -> rstrip s = s.
Proof.
  induction s as [|c s IH]; [reflexivity|]. cbn [ends_clean rstrip].
  destruct s as [|d s].
  - intros H. apply negb_true_iff in H. cbn [rstrip]. rewrite H. reflexivity.
  - intros H. rewrite (IH H). reflexivity.
Qed.

Lemma strip_id (s : str) :
  starts_clean s = true -> ends_clean s = true -> strip s = s.
Proof.
  intros H1 H2. unfold strip. rewrite (lstrip_id s H1). apply rstrip_id, H2.
Qed.

Lemma strip_clean (s : str) :
  starts_clean (strip s) = true /\ ends_clean (strip s) = true.
Proof.
  unfold strip. split.
  - apply rstrip_starts_clean, lstrip_starts_clean.
  - apply rstrip_ends_clean.
Qed.

(** [strip] leaves nothing exactly of the blank strings. *)
Lemma strip_nil (s : str) : strip s = [] <-> blank s = true.
Proof.
  unfold strip. split.
  - intros H. apply rstrip_nil in H. apply lstrip_nil.
    pose proof (lstrip_starts_clean s) as C. revert H C.
    destruct (lstrip s) as [|c l]; intros H C; [reflexivity|].
    cbn [starts_clean] in C. unfold blank in H. cbn [forallb] in H.
    apply andb_true_iff in H. destruct H as [H _].
    rewrite H in C. discriminate.
  - intros H. apply lstrip_nil in H. rewrite H. reflexivity.
Qed.

(** ** Collapsing whitespace *)

Lemma sub_ws_tidy (s : str) :
  forall b, ends_clean s = true -> s <> [] \/ b = false ->
            tidy b (sub_ws b s) = true.
Proof.
  induction s as [|c s IH]; intros b He Hb.
  - destruct Hb as [Hb | ->]; [congruence | reflexivity].
  - assert (Hs : ends_clean s = true).
    { cbn [ends_clean] in He. destruct s; [reflexivity | exact He]. }
    cbn [sub_ws]. destruct (isspace c) eqn:Ec.
    + assert (Hne : s <> []).
      { intros ->. cbn [ends_clean] in He. rewrite Ec in He. discriminate. }
      destruct b.
      * apply IH; auto.
      * cbn [tidy]. assert (E : isspace 0x20 = true) by (vm_compute; reflexivity).
        rewrite E, Z.eqb_refl. cbn [negb andb]. apply IH; auto.
    + cbn [tidy]. rewrite Ec. apply IH; auto.
Qed.

Lemma tidy_sub_ws (s : str) : forall b, tidy b s = true -> sub_ws b s = s.
Proof.
  induction s as [|c s IH]; intros b H; [reflexivity|].
  cbn [tidy] in H. cbn [sub_ws]. destruct (isspace c).
  - apply andb_true_iff in H. destruct H as [H Hs].
    apply andb_true_iff in H. destruct H as [Hc Hb].
    apply Z.eqb_eq in Hc. apply negb_true_iff in Hb. subst.
    rewrite (IH true Hs). reflexivity.
  - rewrite (IH false H). reflexivity.
Qed.

Lemma tidy_ends_clean (s : str) : forall b, tidy b s = true -> ends_clean s = true.
Proof.
  induction s as [|c s IH]; intros b H; [reflexivity|].
  cbn [tidy] in H. cbn [ends_clean]. destruct (isspace c) eqn:Ec.
  - apply andb_true_iff in H. destruct H as [_ Hs].
    destruct s; [discriminate | exact (IH true Hs)].
  - destruct s; [reflexivity | exact (IH false H)].
Qed.

Lemma sub_ws_starts_clean (s : str) :
  starts_clean s = true -> starts_clean (sub_ws false s) = true.
Proof.
  destruct s as [|c s]; [reflexivity|]. cbn [starts_clean sub_ws]. intros H.
  apply negb_true_iff in H. rewrite H. cbn [starts_clean]. rewrite H.
  reflexivity.
Qed.

Lemma sub_ws_stable (s : str) :
  forall b, forallb stableb s = true -> forallb stableb (sub_ws b s) = true.
Proof.
  induction s as [|c s IH]; intros b H; [reflexivity|].
  cbn [forallb] in H. apply andb_true_iff in H. destruct H as [Hc Hs].
  cbn [sub_ws]. destruct (isspace c); [destruct b|]; cbn [forallb].
  - apply IH, Hs.
  - rewrite (IH true Hs). vm_compute. reflexivity.
  - rewrite Hc, (IH false Hs). reflexivity.
Qed.

Lemma sub_ws_nil (s : str) : sub_ws false s = [] -> s = [].
Proof.
  destruct s as [|c s]; [reflexivity|]. cbn [sub_ws].
  destruct (isspace c); discriminate.
Qed.

(** ** Normalised text *)

Lemma normalize_text_normal (s : str) : normal (normalize_text s) = true.
Proof.
  unfold normal, normalize_text, re_sub_ws, lower.
  destruct (strip_clean s) as [H1 H2].
  rewrite sub_ws_starts_clean by (apply lower_from_starts_clean, H1).
  rewrite sub_ws_tidy by (auto using lower_from_ends_clean).
  rewrite sub_ws_stable by apply lower_from_all_stable.
  reflexivity.
Qed.

Lemma normal_fixed (r : str) : normal r = true -> normalize_text r = r.
Proof.
  unfold normal. intros H.
  apply andb_true_iff in H. destruct H as [H H3].
  apply andb_true_iff in H. destruct H as [H1 H2].
  unfold normalize_text, re_sub_ws, lower.
  rewrite (strip_id r H1 (tidy_ends_clean r false H2)).
  rewrite (lower_from_stable r [] H3).
  apply tidy_sub_ws, H2.
Qed.

(** Normalisation leaves nothing exactly of the blank strings. *)
Lemma normalize_text_nil (s : str) : normalize_text s = [] <-> blank s = true.
Proof.
  rewrite <- strip_nil. unfold normalize_text, re_sub_ws, lower. split.
  - intros H. apply sub_ws_nil in H. apply lower_from_nil in H. exact H.
  - intros ->. reflexivity.
Qed.

(** ** Lines *)

Lemma tidy_no_boundary (s : str) :
  forall b, tidy b s = true ->
            forallb (fun c => negb (is_line_boundary c)) s = true.
Proof.
  induction s as [|c s IH]; intros b H; [reflexivity|].
  cbn [tidy] in H. cbn [forallb].
  destruct (is_line_boundary c) eqn:El; cbn [negb andb].
  - exfalso. apply line_boundary_space in El. destruct El as [Ew Ne].
    rewrite Ew in H. apply andb_true_iff in H. destruct H as [H _].
    apply andb_true_iff in H. destruct H as [H _].
    apply Z.eqb_eq in H. contradiction.
  - destruct (isspace c).
    + apply andb_true_iff in H. destruct H as [_ H]. exact (IH true H).
    + exact (IH false H).
Qed.

Lemma splitlines_from_one_line (s : str) :
  forall cur, forallb (fun c => negb (is_line_boundary c)) s = true ->
              splitlines_from false cur s =
              match rev cur ++ s with [] => [] | l => [l] end.
Proof.
  induction s as [|c s IH]; intros cur H.
  - cbn [splitlines_from]. rewrite app_nil_r. destruct cur as [|x cur]; [reflexivity|].
    cbn [rev]. destruct (rev cur); reflexivity.
  - cbn [forallb] in H. apply andb_true_iff in H. destruct H as [Hc Hs].
    apply negb_true_iff in Hc. cbn [splitlines_from andb]. rewrite Hc.
    rewrite (IH (c :: cur) Hs). cbn [rev]. rewrite <- app_assoc. reflexivity.
Qed.

(** Normalised text has no line boundary in it: it is one line, or no
    line at all when it is empty. *)
Lemma normal_splitlines (r : str) :
  normal r = true -> splitlines r = match r with [] => [] | _ => [r] end.
Proof.
  unfold normal. intros H.
  apply andb_true_iff in H. destruct H as [H _].
  apply andb_true_iff in H. destruct H as [_ H].
  unfold splitlines.
  rewrite (splitlines_from_one_line r [] (tidy_no_boundary r false H)).
  cbn [rev app]. destruct r; reflexivity.
Qed.

Lemma normal_first_line (r : str) :
  normal r = true -> r <> [] -> first_line r = Return r.
Proof.
  intros H Hne. unfold first_line. rewrite (normal_splitlines r H).
  destruct r as [|c r]; [congruence|].
  unfold normal in H.
  apply andb_true_iff in H. destruct H as [H _].
  apply andb_true_iff in H. destruct H as [H1 H2].
  rewrite (strip_id _ H1 (tidy_ends_clean _ false H2)). reflexivity.
Qed.

Lemma first_line_normalize_text (raw : str) :
  first_line (normalize_text raw) =
  if blank raw then Raise IndexError else Return (normalize_text raw).
Proof.
  destruct (blank raw) eqn:B.
  - apply normalize_text_nil in B. rewrite B. reflexivity.
  - apply normal_first_line; [apply normalize_text_normal|].
    intros E. apply normalize_text_nil in E. congruence.
Qed.

(** ** Substrings and search *)

Lemma startswith_prefix (p s : str) :
  startswith p s = true <-> exists t, s = p ++ t.
Proof.
  revert s. induction p as [|a p IH]; intros s; cbn [startswith].
  - split; [intros _; exists s; reflexivity | reflexivity].
  - destruct s as [|b s].
    + split; [discriminate | intros [t E]; discriminate].
    + rewrite andb_true_iff, Z.eqb_eq, IH. split.
      * intros [-> [t ->]]. exists t. reflexivity.
      * intros [t E]. inversion E. split; [reflexivity | exists t; reflexivity].
Qed.

(** [contains] is the substring relation. *)
Lemma contains_substring (sub s : str) :
  contains sub s = true <-> exists a b, s = a ++ sub ++ b.
Proof.
  induction s as [|c s IH]; cbn [contains]; rewrite orb_true_iff, startswith_prefix.
  - split.
    + intros [[t E] | F]; [|discriminate]. exists [], t. exact E.
    + intros [a [b E]]. left. destruct a; [exists b; exact E|discriminate].
  - rewrite IH. split.
    + intros [[t E] | [a [b E]]].
      * exists [], t. exact E.
      * exists (c :: a), b. rewrite E. reflexivity.
    + intros [[|x a] [b E]].
      * left. exists b. exact E.
      * right. inversion E. exists a, b. reflexivity.
Qed.

Lemma find_earliest {A : Type} (f : A -> bool) (pre : list A) (x : A) (post : list A) :
  f x = true -> (forall y, In y pre -> f y = false) ->
  find f (pre ++ x :: post) = Some x.
Proof.
  intros Hx. induction pre as [|y pre IH]; intros Hpre; cbn [app find].
  - rewrite Hx. reflexivity.
  - rewrite (Hpre y (or_introl eq_refl)). apply IH.
    intros z Hz. apply Hpre. right. exact Hz.
Qed.

Lemma find_nothing {A : Type} (f : A -> bool) (l : list A) :
  (forall y, In y l -> f y = false) -> find f l = None.
Proof.
  induction l as [|y l IH]; intros H; cbn [find]; [reflexivity|].
  rewrite (H y (or_introl eq_refl)). apply IH.
  intros z Hz. apply H. right. exact Hz.
Qed.

(** ** Running computations *)

Section Running.

Variable svc : service.

Lemma run_bind {A B : Type} (m : io A) (f : A -> io B) :
  forall log,
    run svc log (bind m f) =
    match run svc log m with
    | (Return a, log') => run svc log' (f a)
    | (Raise e, log') => (Raise e, log')
    end.
Proof.
  induction m as [o | p j k IH]; intros log.
  - destruct o; reflexivity.
  - cbn [bind run]. apply IH.
Qed.

Lemma run_try_except {A : Type} (m : io A) (cls : string) (handler : io A) :
  forall log,
    run svc log (try_except m cls handler) =
    match run svc log m with
    | (Return a, log') => (Return a, log')
    | (Raise e, log') =>
        if isinstance e cls then run svc log' handler else (Raise e, log')
    end.
Proof.
  induction m as [o | p j k IH]; intros log.
  - destruct o as [a | e]; cbn [try_except run]; [reflexivity|].
    destruct (isinstance e cls); reflexivity.
  - cbn [try_except run]. apply IH.
Qed.

(** Against a service that raises only errors, so does [mistral_chat]. *)
Lemma mistral_chat_raises (prompt : str) (is_json : bool)
      (log log' : list call) (e : exn) :
  raises_errors_only svc ->
  run svc log (mistral_chat prompt is_json) = (Raise e, log') ->
  isinstance e "Exception" = true.
Proof.
  intros W. unfold mistral_chat, chat_complete.
  cbn [try_except bind run].
  destruct (svc log (prompt, is_json)) as [r | e1] eqn:E1.
  - cbn [try_except bind run]. destruct r as [t | e2]; cbn [run]; intros H.
    + discriminate.
    + injection H as <- _. apply (W log (prompt, is_json)). right. exact E1.
  - cbn [try_except]. destruct (isinstance e1 "TypeError") eqn:T.
    + cbn [bind run].
      destruct (svc (log ++ [(prompt, is_json)]) (prompt, false)) as [r | e3] eqn:E3.
      * cbn [bind run]. destruct r as [t | e2]; cbn [run]; intros H.
        -- discriminate.
        -- injection H as <- _.
           apply (W (log ++ [(prompt, is_json)]) (prompt, false)). right. exact E3.
      * cbn [bind run]. intros H. injection H as <- _.
        apply (W (log ++ [(prompt, is_json)]) (prompt, false)). left. exact E3.
    + cbn [bind run]. intros H. injection H as <- _.
      apply (W log (prompt, is_json)). left. exact E1.
Qed.

End Running.

(** ** Category matching *)

Lemma fallback_allowed : In (u "customer service") ALLOWED_CATEGORIES.
Proof. apply str_in_In. vm_compute. reflexivity. Qed.

Lemma parse_category_allowed (raw c : str) :
  parse_category raw = Return c -> In c ALLOWED_CATEGORIES.
Proof.
  unfold parse_category. destruct (first_line (normalize_text raw)) as [l | e];
    [|discriminate].
  destruct (str_in l ALLOWED_CATEGORIES) eqn:D.
  - intros H. injection H as <-. apply str_in_In, D.
  - destruct (find _ ALLOWED_CATEGORIES) as [x|] eqn:F; intros H; injection H as <-.
    + apply find_some in F. apply F.
    + apply fallback_allowed.
Qed.

Lemma parse_category_raises (raw : str) (e : exn) :
  parse_category raw = Raise e -> blank raw = true /\ e = IndexError.
Proof.
  unfold parse_category. rewrite first_line_normalize_text.
  destruct (blank raw).
  - intros H. injection H as <-. auto.
  - destruct (str_in _ _); [discriminate|].
    destruct (find _ _); discriminate.
Qed.

(** A blank response has no first line to take. *)
Lemma parse_category_blank (raw : str) :
  blank raw = true -> parse_category raw = Raise IndexError.
Proof.
  intros B. unfold parse_category. rewrite first_line_normalize_text, B.
  reflexivity.
Qed.

(** On a response that is not blank the first line is the whole
    normalised response, and matching goes as in the one-line reading. *)
Lemma parse_category_not_blank (raw : str) :
  blank raw = false ->
  parse_category raw = Return (parse_category_simple raw).
Proof.
  intros B. unfold parse_category, parse_category_simple.
  rewrite first_line_normalize_text, B.
  destruct (str_in _ _); [reflexivity|].
  destruct (find _ _); reflexivity.
Qed.

(** * The claims *)

(** C1.  [parse_category] does not return on every response: on the
    empty response and on a response of whitespace alone the normalised
    text has no line, and taking its first line raises [IndexError]. *)
Theorem parse_category_raises_on_blank :
  parse_category (u "") = Raise IndexError /\
  parse_category (u "   ") = Raise IndexError /\
  parse_category [0x20; 0x0A; 0x09] = Raise IndexError.
Proof. repeat split; vm_compute; reflexivity. Qed.

(** When the first line of the normalised response, trimmed, is one of
    the allowed categories, [parse_category] returns that category. *)
Theorem parse_category_exact (raw l : str) :
  first_line (normalize_text raw) = Return l ->
  In l ALLOWED_CATEGORIES ->
  parse_category raw = Return l.
Proof.
  intros F H. unfold parse_category. rewrite F.
  apply str_in_In in H. rewrite H. reflexivity.
Qed.

Lemma parse_category_exact_witness :
  parse_category (u "  Card   ARRIVAL" ++ [NL]) = Return (u "card arrival").
Proof.
  apply (parse_category_exact (u "  Card   ARRIVAL" ++ [NL]) (u "card arrival")).
  - vm_compute. reflexivity.
  - apply str_in_In. vm_compute. reflexivity.
Defined.

(** When the normalised response has a first line which, trimmed, is not
    an allowed category, [parse_category] returns the earliest category
    of the list that is a substring of the normalised response, and the
    fallback category when none is. *)
Theorem parse_category_scan (raw l : str) :
  first_line (normalize_text raw) = Return l ->
  ~ In l ALLOWED_CATEGORIES ->
  (forall pre c post,
      ALLOWED_CATEGORIES = pre ++ c :: post ->
      contains c (normalize_text raw) = true ->
      (forall c', In c' pre -> contains c' (normalize_text raw) = false) ->
      parse_category raw = Return c) /\
  ((forall c, In c ALLOWED_CATEGORIES ->
              contains c (normalize_text raw) = false) ->
   parse_category raw = Return (u "customer service")).
Proof.
  intros F H. apply str_in_not_In in H. unfold parse_category.
  rewrite F, H. split.
  - intros pre c post E Hc Hpre. rewrite E.
    rewrite (find_earliest _ pre c post Hc Hpre). reflexivity.
  - intros Hnone. rewrite (find_nothing _ _ Hnone). reflexivity.
Qed.

Lemma parse_category_scan_witness :
  parse_category (u "Exchange rate, or maybe change PIN?") = Return (u "change pin") /\
  parse_category (u "I do not know") = Return (u "customer service").
Proof.
  split.
  - destruct (parse_category_scan (u "Exchange rate, or maybe change PIN?")
                (u "exchange rate, or maybe change pin?")) as [A _].
    + vm_compute. reflexivity.
    + apply str_in_not_In. vm_compute. reflexivity.
    + apply (A [u "card arrival"] (u "change pin")
               (map u ["exchange rate"; "country support"; "cancel transfer";
                       "charge dispute"; "customer service"]%string)).
      * reflexivity.
      * vm_compute. reflexivity.
      * intros c' [<- | []]. vm_compute. reflexivity.
  - destruct (parse_category_scan (u "I do not know") (u "i do not know")) as [_ B].
    + vm_compute. reflexivity.
    + apply str_in_not_In. vm_compute. reflexivity.
    + apply B. intros c Hc.
      assert (A : forallb (fun c => negb (contains c (normalize_text (u "I do not know"))))
                          ALLOWED_CATEGORIES = true) by (vm_compute; reflexivity).
      rewrite forallb_forall in A. apply negb_true_iff, A, Hc.
Defined.

(** C4.  On an inquiry whose normalised form has at most two
    whitespace-separated tokens, or is one of the greeting phrases,
    [classify_intent] is the computation that returns the fallback
    category at once: whatever the service, no request is made. *)
Theorem classify_intent_short (inquiry : str) :
  (List.length (split (normalize_text inquiry)) <= 2)%nat \/
  In (normalize_text inquiry) GREETINGS ->
  classify_intent inquiry = Done (Return (u "customer service")) /\
  forall (svc : service) (log : list call),
    run svc log (classify_intent inquiry) = (Return (u "customer service"), log).
Proof.
  intros H.
  assert (E : classify_intent inquiry = Done (Return (u "customer service"))).
  { unfold classify_intent. destruct H as [H | H].
    - apply Nat.leb_le in H. rewrite H. reflexivity.
    - apply str_in_In in H. rewrite H, orb_true_r. reflexivity. }
  split; [exact E|]. intros svc log. rewrite E. reflexivity.
Qed.

Lemma classify_intent_short_witness :
  classify_intent (u "  Good   MORNING ") = Done (Return (u "customer service")) /\
  classify_intent (u "hello there") = Done (Return (u "customer service")).
Proof.
  split.
  - apply (classify_intent_short (u "  Good   MORNING ")). right.
    apply str_in_In. vm_compute. reflexivity.
  - apply (classify_intent_short (u "hello there")). left.
    apply Nat.leb_le. vm_compute. reflexivity.
Defined.

(** What [classify_intent] does once past the shortcut, in terms of
    what its call of [mistral_chat] does. *)
Lemma run_classify_intent (inquiry : str) (svc : service) (log : list call) :
  (List.length (split (normalize_text inquiry)) <=? 2)%nat
    || str_in (normalize_text inquiry) GREETINGS = false ->
  run svc log (classify_intent inquiry) =
  match run svc log (mistral_chat (CLASSIFY_PROMPT inquiry) false) with
  | (Return raw, log') =>
      (Return match parse_category raw with
              | Return c => c
              | Raise _ => u "customer service"
              end, log')
  | (Raise e, log') =>
      if isinstance e "Exception"
      then (Return (u "customer service"), log')
      else (Raise e, log')
  end.
Proof.
  intros G. unfold classify_intent. rewrite G, run_try_except, run_bind.
  destruct (run svc log (mistral_chat (CLASSIFY_PROMPT inquiry) false))
    as [[raw | e] log'].
  - cbn [run]. destruct (parse_category raw) as [c | e] eqn:P; [reflexivity|].
    apply parse_category_raises in P. destruct P as [_ ->]. reflexivity.
  - destruct (isinstance e "Exception"); reflexivity.
Qed.

(** C5.  Past the shortcut, when the call of [mistral_chat] raises an
    error (an instance of [Exception], which is what the handler
    catches), [classify_intent] returns the fallback category; and no
    run of [classify_intent] ends in an error. *)
Theorem classify_intent_catches (inquiry : str) (svc : service) (log : list call) :
  ((2 < List.length (split (normalize_text inquiry)))%nat ->
   ~ In (normalize_text inquiry) GREETINGS ->
   forall e log',
     run svc log (mistral_chat (CLASSIFY_PROMPT inquiry) false) = (Raise e, log') ->
     isinstance e "Exception" = true ->
     run svc log (classify_intent inquiry) = (Return (u "customer service"), log')) /\
  (forall e log',
     run svc log (classify_intent inquiry) = (Raise e, log') ->
     isinstance e "Exception" = false).
Proof.
  split.
  - intros Hlen Hg e log' R I.
    rewrite run_classify_intent, R, I; [reflexivity|].
    apply Nat.leb_gt in Hlen. apply str_in_not_In in Hg.
    rewrite Hlen, Hg. reflexivity.
  - intros e log'.
    destruct ((List.length (split (normalize_text inquiry)) <=? 2)%nat
              || str_in (normalize_text inquiry) GREETINGS) eqn:G.
    + unfold classify_intent. rewrite G. cbn [run]. discriminate.
    + rewrite (run_classify_intent inquiry svc log G).
      destruct (run svc log (mistral_chat (CLASSIFY_PROMPT inquiry) false))
        as [[raw | e0] l]; [discriminate|].
      destruct (isinstance e0 "Exception") eqn:I; [discriminate|].
      intros H. injection H as <- _. exact I.
Qed.

Lemma classify_intent_catches_witness :
  run (fun _ _ => Raise {| exn_classes := ["ConnectionError"; "OSError";
                                           "Exception"; "BaseException"]%string |})
      [] (classify_intent (u "I was charged twice by a merchant."))
  = (Return (u "customer service"),
     [(CLASSIFY_PROMPT (u "I was charged twice by a merchant."), false)]).
Proof.
  destruct (classify_intent_catches (u "I was charged twice by a merchant.")
              (fun _ _ => Raise {| exn_classes := ["ConnectionError"; "OSError";
                                                  "Exception"; "BaseException"]%string |})
              []) as [A _].
  apply (A ltac:(apply Nat.leb_gt; vm_compute; reflexivity)
           ltac:(apply str_in_not_In; vm_compute; reflexivity)
           {| exn_classes := ["ConnectionError"; "OSError";
                              "Exception"; "BaseException"]%string |}).
  - reflexivity.
  - reflexivity.
Defined.

(** ** Answering *)

Lemma KB_default :
  KB_getitem (u "customer service") =
  Return (u "Tell me your issue and I will guide you.").
Proof. vm_compute. reflexivity. Qed.

(** Every category has its guidance. *)
Lemma KB_total (c : str) :
  In c ALLOWED_CATEGORIES -> exists g, KB_lookup c = Some g.
Proof.
  intros H.
  assert (A : forallb (fun c => match KB_lookup c with Some _ => true | None => false end)
                      ALLOWED_CATEGORIES = true) by (vm_compute; reflexivity).
  rewrite forallb_forall in A. specialize (A c H).
  destruct (KB_lookup c) as [g|]; [exists g; reflexivity | discriminate].
Qed.

(** What [compose] does, in terms of what its call of [mistral_chat]
    does. *)
Lemma run_compose (category inquiry : str) (svc : service) (log : list call) :
  let guidance := KB_get category (u "Tell me your issue and I will guide you.") in
  run svc log (compose category inquiry) =
  match run svc log (mistral_chat (ANSWER_PROMPT guidance inquiry) false) with
  | (Return s, log') => (Return (strip s), log')
  | (Raise e, log') =>
      if isinstance e "Exception"
      then (Return guidance, log')
      else (Raise e, log')
  end.
Proof.
  intros guidance. unfold compose. rewrite KB_default. cbn [bind].
  fold guidance. rewrite run_try_except, run_bind.
  destruct (run svc log (mistral_chat (ANSWER_PROMPT guidance inquiry) false))
    as [[s | e] log']; [reflexivity|].
  destruct (isinstance e "Exception"); reflexivity.
Qed.

(** C6.  When the call of [mistral_chat] made to phrase the answer
    raises an error, [compose] returns the guidance text of the category
    as it stands in [KB]; and no run of [compose] ends in an error. *)
Theorem compose_falls_back (category g inquiry : str) (svc : service)
        (log : list call) :
  KB_lookup category = Some g ->
  (forall e log',
     run svc log (mistral_chat (ANSWER_PROMPT g inquiry) false) = (Raise e, log') ->
     isinstance e "Exception" = true ->
     run svc log (compose category inquiry) = (Return g, log')) /\
  (forall e log',
     run svc log (compose category inquiry) = (Raise e, log') ->
     isinstance e "Exception" = false).
Proof.
  intros K. pose proof (run_compose category inquiry svc log) as E.
  cbv zeta in E. unfold KB_get in E. rewrite K in E. rewrite E. split.
  - intros e log' R I. rewrite R, I. reflexivity.
  - intros e log'.
    destruct (run svc log (mistral_chat (ANSWER_PROMPT g inquiry) false))
      as [[s | e0] l]; [discriminate|].
    destruct (isinstance e0 "Exception") eqn:I; [discriminate|].
    intros H. injection H as <- _. exact I.
Qed.

Lemma compose_falls_back_witness :
  fst (run (fun _ _ => Raise {| exn_classes := ["TimeoutError"; "OSError";
                                                "Exception"; "BaseException"]%string |})
           [] (compose (u "customer service")
                       (u "I was charged twice by a merchant.")))
  = Return (u "Tell me your issue and I will guide you.").
Proof.
  destruct (compose_falls_back (u "customer service")
              (u "Tell me your issue and I will guide you.")
              (u "I was charged twice by a merchant.")
              (fun _ _ => Raise {| exn_classes := ["TimeoutError"; "OSError";
                                                  "Exception"; "BaseException"]%string |})
              [] ltac:(vm_compute; reflexivity)) as [A _].
  rewrite (A {| exn_classes := ["TimeoutError"; "OSError";
                                "Exception"; "BaseException"]%string |}
             _ eq_refl eq_refl).
  reflexivity.
Defined.

(** ** Normalisation *)

(** The normalised response never has more than one line. *)
Lemma normalize_text_one_line (raw : str) :
  (List.length (splitlines (normalize_text raw)) <= 1)%nat.
Proof.
  rewrite (normal_splitlines _ (normalize_text_normal raw)).
  destruct (normalize_text raw); cbn [List.length]; lia.
Qed.

(** What follows the first line of the raw response takes part in the
    matching: its line feed is a space by the time the lines are split. *)
Remark parse_category_later_lines :
  first_line (normalize_text (u "customer service" ++ [NL] ++ u "not change pin"))
  = Return (u "customer service not change pin") /\
  parse_category (u "customer service" ++ [NL] ++ u "not change pin")
  = Return (u "change pin").
Proof. split; vm_compute; reflexivity. Qed.

(** ** The send handler *)

(** C8.  Sending an empty message, or one of whitespace alone, changes
    nothing: the handler returns the session state it was given, the
    chat history with it, and makes no request. *)
Theorem send_blank_noop (send : bool) (msg : str) (st : session_state) :
  blank msg = true ->
  send_handler send msg st = Done (Return st) /\
  forall (svc : service) (log : list call),
    run svc log (send_handler send msg st) = (Return st, log).
Proof.
  intros B. apply strip_nil in B.
  assert (E : send_handler send msg st = Done (Return st)).
  { unfold send_handler. rewrite B. cbn [truthy]. rewrite andb_false_r.
    reflexivity. }
  split; [exact E|]. intros svc log. rewrite E. reflexivity.
Qed.

Lemma send_blank_noop_witness :
  let st := {| chat_history := [ {| role := user; text := u "hi"; cat := None |} ];
               pending_text := [];
               draft_version := 1 |} in
  send_handler true (u "   ") st = Done (Return st) /\
  send_handler true (u "") st = Done (Return st).
Proof.
  intros st. split.
  - apply (send_blank_noop true (u "   ") st). reflexivity.
  - apply (send_blank_noop true (u "") st). reflexivity.
Defined.

(** ** Classification *)

(** C9.  Whatever the service does, a category returned by
    [classify_intent] is one of the seven allowed categories; and it
    does return one whenever the service raises nothing but errors. *)
Theorem classify_intent_allowed (inquiry : str) (svc : service) (log : list call) :
  (forall c log',
     run svc log (classify_intent inquiry) = (Return c, log') ->
     In c ALLOWED_CATEGORIES) /\
  (raises_errors_only svc ->
   exists c log',
     run svc log (classify_intent inquiry) = (Return c, log') /\
     In c ALLOWED_CATEGORIES).
Proof.
  assert (P : forall c log',
             run svc log (classify_intent inquiry) = (Return c, log') ->
             In c ALLOWED_CATEGORIES).
  { intros c log'.
    destruct ((List.length (split (normalize_text inquiry)) <=? 2)%nat
              || str_in (normalize_text inquiry) GREETINGS) eqn:G.
    - unfold classify_intent. rewrite G. cbn [run]. intros H.
      injection H as <- _. apply fallback_allowed.
    - rewrite (run_classify_intent inquiry svc log G).
      destruct (run svc log (mistral_chat (CLASSIFY_PROMPT inquiry) false))
        as [[raw | e] l].
      + intros H. injection H as <- _.
        destruct (parse_category raw) as [c | e] eqn:Q.
        * apply (parse_category_allowed raw c Q).
        * apply fallback_allowed.
      + destruct (isinstance e "Exception"); [|discriminate].
        intros H. injection H as <- _. apply fallback_allowed. }
  split; [exact P|]. intros W.
  destruct (run svc log (classify_intent inquiry)) as [[c | e] l] eqn:R.
  - exists c, l. split; [reflexivity | apply (P c l eq_refl)].
  - exfalso. revert R.
    destruct ((List.length (split (normalize_text inquiry)) <=? 2)%nat
              || str_in (normalize_text inquiry) GREETINGS) eqn:G.
    + unfold classify_intent. rewrite G. cbn [run]. discriminate.
    + rewrite (run_classify_intent inquiry svc log G).
      destruct (run svc log (mistral_chat (CLASSIFY_PROMPT inquiry) false))
        as [[raw | e0] l0] eqn:M; [discriminate|].
      rewrite (mistral_chat_raises svc _ _ _ _ _ W M). discriminate.
Qed.

Lemma classify_intent_allowed_witness :
  exists c log',
    run (fun _ _ => Return (Return (u " Change PIN" ++ [NL]))) []
        (classify_intent (u "How do I change my PIN?")) = (Return c, log') /\
    In c ALLOWED_CATEGORIES.
Proof.
  destruct (classify_intent_allowed (u "How do I change my PIN?")
              (fun _ _ => Return (Return (u " Change PIN" ++ [NL]))) []) as [_ T].
  apply T. intros log c e [H | H]; discriminate H.
Defined.

(** C10.  The normalised response has at most one line, but on a
    response of whitespace alone, which is not empty, it has none:
    [parse_category] raises where the one-line reading returns the
    fallback category. *)
Theorem parse_category_simple_differs :
  u " " <> [] /\
  parse_category (u " ") = Raise IndexError /\
  parse_category_simple (u " ") = u "customer service".
Proof.
  split; [discriminate|]. split; vm_compute; reflexivity.
Qed.

(** * Further properties of the program *)

(** ** More on stripping and lower-casing *)

Lemma strip_strip (s : str) : strip (strip s) = strip s.
Proof. destruct (strip_clean s) as [H1 H2]. apply strip_id; assumption. Qed.

Lemma blank_app (a b : str) : blank (a ++ b) = blank a && blank b.
Proof. unfold blank. apply forallb_app. Qed.

Lemma blank_rev (w : str) : blank (rev w) = blank w.
Proof.
  induction w as [|c w IH]; [reflexivity|].
  cbn [rev]. rewrite blank_app, IH. unfold blank. cbn [forallb].
  rewrite andb_true_r. apply andb_comm.
Qed.

Lemma lstrip_pad (w t : str) : blank w = true -> lstrip (w ++ t) = lstrip t.
Proof.
  unfold lstrip, blank. induction w as [|c w IH]; intros H; [reflexivity|].
  cbn [forallb] in H. apply andb_true_iff in H. destruct H as [Hc Hw].
  cbn [app dropwhile]. rewrite Hc. exact (IH Hw).
Qed.

Lemma rstrip_pad (t w : str) : blank w = true -> rstrip (t ++ w) = rstrip t.
Proof.
  intros H. induction t as [|c t IH]; cbn [app].
  - apply rstrip_nil, H.
  - cbn [rstrip]. rewrite IH. reflexivity.
Qed.

Lemma lstrip_app (s w : str) :
  lstrip (s ++ w) = if blank s then lstrip w else lstrip s ++ w.
Proof.
  unfold lstrip, blank. induction s as [|c s IH]; [reflexivity|].
  cbn [app dropwhile forallb]. destruct (isspace c); cbn [andb];
    [exact IH | reflexivity].
Qed.

(** Whitespace around a string does not change what [strip] gives. *)
Lemma strip_pad (w1 s w2 : str) :
  blank w1 = true -> blank w2 = true -> strip (w1 ++ s ++ w2) = strip s.
Proof.
  intros H1 H2. unfold strip. rewrite (lstrip_pad w1 _ H1), lstrip_app.
  destruct (blank s) eqn:B.
  - apply lstrip_nil in H2. rewrite H2. apply lstrip_nil in B. rewrite B.
    reflexivity.
  - apply rstrip_pad, H2.
Qed.

Lemma rstrip_split (s : str) : exists w, blank w = true /\ s = rstrip s ++ w.
Proof.
  induction s as [|c s [w [Hw E]]].
  - exists []. split; reflexivity.
  - cbn [rstrip]. destruct (rstrip s) as [|d r] eqn:R.
    + cbn [app] in E. subst w. destruct (isspace c) eqn:Ec.
      * exists (c :: s). split; [|reflexivity].
        unfold blank in *. cbn [forallb]. rewrite Ec, Hw. reflexivity.
      * exists s. split; [exact Hw | reflexivity].
    + exists w. split; [exact Hw|]. cbn [app]. f_equal. exact E.
Qed.

Lemma lstrip_split (s : str) : exists w, blank w = true /\ s = w ++ lstrip s.
Proof.
  unfold lstrip, blank. induction s as [|c s [w [Hw E]]].
  - exists []. split; reflexivity.
  - cbn [dropwhile]. destruct (isspace c) eqn:Ec.
    + exists (c :: w). split.
      * cbn [forallb]. rewrite Ec, Hw. reflexivity.
      * cbn [app]. rewrite <- E. reflexivity.
    + exists []. split; reflexivity.
Qed.

(** A string is its stripped form with whitespace on both sides. *)
Lemma strip_split (s : str) :
  exists w1 w2, blank w1 = true /\ blank w2 = true /\ s = w1 ++ strip s ++ w2.
Proof.
  destruct (lstrip_split s) as [w1 [H1 E1]].
  destruct (rstrip_split (lstrip s)) as [w2 [H2 E2]].
  exists w1, w2. split; [exact H1|]. split; [exact H2|].
  unfold strip. rewrite <- E2. exact E1.
Qed.

Lemma isspace_uncased (c : Z) :
  isspace c = true -> is_cased c = false /\ is_case_ignorable c = false.
Proof.
  intros H. apply isspace_In in H.
  assert (A : forallb (fun d => negb (is_cased d) && negb (is_case_ignorable d))
                      UCD.whitespace = true) by (vm_compute; reflexivity).
  rewrite forallb_forall in A. apply A in H.
  apply andb_true_iff in H. destruct H as [H1 H2].
  apply negb_true_iff in H1, H2. auto.
Qed.

Lemma final_sigma_pad_before (x w a : str) :
  blank w = true -> final_sigma (x ++ w) a = final_sigma x a.
Proof.
  intros H. unfold final_sigma. induction x as [|c x IH]; cbn [app dropwhile].
  - destruct w as [|d w]; [reflexivity|].
    unfold blank in H. cbn [forallb] in H. apply andb_true_iff in H.
    destruct H as [Hd _]. apply isspace_uncased in Hd. destruct Hd as [H1 H2].
    cbn [dropwhile]. rewrite H2, H1. reflexivity.
  - destruct (is_case_ignorable c); [exact IH | reflexivity].
Qed.

Lemma final_sigma_pad_after (b a w : str) :
  blank w = true -> final_sigma b (a ++ w) = final_sigma b a.
Proof.
  intros H. unfold final_sigma.
  destruct (dropwhile is_case_ignorable b) as [|c _]; [reflexivity|].
  f_equal. induction a as [|d a IH]; cbn [app dropwhile].
  - destruct w as [|d w]; [reflexivity|].
    unfold blank in H. cbn [forallb] in H. apply andb_true_iff in H.
    destruct H as [Hd _]. apply isspace_uncased in Hd. destruct Hd as [H1 H2].
    cbn [dropwhile]. rewrite H2, H1. reflexivity.
  - destruct (is_case_ignorable d); [exact IH | reflexivity].
Qed.

Lemma lower_from_pad_before (t : str) :
  forall b w, blank w = true -> lower_from (b ++ w) t = lower_from b t.
Proof.
  induction t as [|c t IH]; intros b w H; [reflexivity|].
  cbn [lower_from]. change (c :: b ++ w) with ((c :: b) ++ w).
  rewrite (IH (c :: b) w H). f_equal.
  unfold lower_at. rewrite (final_sigma_pad_before b w t H). reflexivity.
Qed.

Lemma blank_all_stable (w : str) : blank w = true -> forallb stableb w = true.
Proof.
  unfold blank. intros H. apply forallb_forall. intros c Hc.
  rewrite forallb_forall in H. apply isspace_stable, H, Hc.
Qed.

Lemma lower_from_pad_after (t : str) :
  forall b w, blank w = true -> lower_from b (t ++ w) = lower_from b t ++ w.
Proof.
  induction t as [|c t IH]; intros b w H.
  - apply lower_from_stable, blank_all_stable, H.
  - cbn [app lower_from]. rewrite (IH (c :: b) w H), <- app_assoc. f_equal.
    unfold lower_at. rewrite (final_sigma_pad_after b t w H). reflexivity.
Qed.

Lemma lower_from_pad_front (w : str) :
  forall b t, blank w = true ->
              lower_from b (w ++ t) = w ++ lower_from (rev w ++ b) t.
Proof.
  induction w as [|c w IH]; intros b t H; [reflexivity|].
  unfold blank in H. cbn [forallb] in H. apply andb_true_iff in H.
  destruct H as [Hc Hw]. cbn [app lower_from].
  rewrite (stableb_lower_at b c (w ++ t) (isspace_stable c Hc)).
  rewrite (IH (c :: b) t Hw). cbn [rev app]. rewrite <- app_assoc. reflexivity.
Qed.

(** Lower-casing and stripping commute. *)
Lemma strip_lower (s : str) : strip (lower s) = lower (strip s).
Proof.
  destruct (strip_split s) as [w1 [w2 [H1 [H2 E]]]].
  destruct (strip_clean s) as [C1 C2].
  unfold lower. rewrite E at 1.
  rewrite (lower_from_pad_front w1 [] _ H1), app_nil_r.
  rewrite (lower_from_pad_after _ (rev w1) w2 H2).
  change (rev w1) with ([] ++ rev w1).
  rewrite lower_from_pad_before by (rewrite blank_rev; exact H1).
  rewrite (strip_pad w1 _ w2 H1 H2).
  apply strip_id; [apply lower_from_starts_clean | apply lower_from_ends_clean];
    assumption.
Qed.

Lemma lower_lower (s : str) : lower (lower s) = lower s.
Proof. unfold lower. apply lower_from_stable, lower_from_all_stable. Qed.

(** ** More on normalisation *)

Lemma tidy_spaces (s : str) :
  forall b, tidy b s = true ->
            forall c, In c s -> isspace c = true -> c = 0x20.
Proof.
  induction s as [|d s IH]; intros b H c Hc Hw; [destruct Hc|].
  cbn [tidy] in H. destruct Hc as [<- | Hc].
  - rewrite Hw in H. apply andb_true_iff in H. destruct H as [H _].
    apply andb_true_iff in H. destruct H as [H _]. apply Z.eqb_eq, H.
  - destruct (isspace d).
    + apply andb_true_iff in H. destruct H as [_ H]. exact (IH true H c Hc Hw).
    + exact (IH false H c Hc Hw).
Qed.

Lemma tidy_no_double (s : str) :
  forall b a t, tidy b s = true -> s <> a ++ 0x20 :: 0x20 :: t.
Proof.
  assert (E : isspace 0x20 = true) by (vm_compute; reflexivity).
  induction s as [|d s IH]; intros b a t H Hs.
  - destruct a; discriminate.
  - cbn [tidy] in H. destruct a as [|x a]; cbn [app] in Hs.
    + injection Hs as -> ->. rewrite E in H.
      apply andb_true_iff in H. destruct H as [_ H].
      cbn [tidy] in H. rewrite E in H. cbn [negb] in H.
      rewrite andb_false_r in H. discriminate.
    + injection Hs as -> Hs. destruct (isspace x).
      * apply andb_true_iff in H. destruct H as [_ H].
        exact (IH true a t H Hs).
      * exact (IH false a t H Hs).
Qed.

(** X1.  [normalize_text] gives the empty string exactly on the strings
    that hold nothing but whitespace. *)
Theorem normalize_text_empty_iff_blank (s : str) :
  normalize_text s = [] <-> blank s = true.
Proof. apply normalize_text_nil. Qed.

(** X2.  The shape of normalised text: each of the three stages leaves
    it as it is, its only whitespace is the space U+0020, and no two
    spaces are next to each other. *)
Theorem normalize_text_shape (s : str) :
  strip (normalize_text s) = normalize_text s /\
  lower (normalize_text s) = normalize_text s /\
  re_sub_ws (normalize_text s) = normalize_text s /\
  (forall c, In c (normalize_text s) -> isspace c = true -> c = 0x20) /\
  (forall a t, normalize_text s <> a ++ 0x20 :: 0x20 :: t).
Proof.
  pose proof (normalize_text_normal s) as N. unfold normal in N.
  apply andb_true_iff in N. destruct N as [N N3].
  apply andb_true_iff in N. destruct N as [N1 N2].
  split; [|split; [|split; [|split]]].
  - apply strip_id; [exact N1 | exact (tidy_ends_clean _ false N2)].
  - apply lower_from_stable, N3.
  - apply tidy_sub_ws, N2.
  - apply (tidy_spaces _ false N2).
  - intros a t. apply (tidy_no_double _ false a t N2).
Qed.

Lemma normalize_text_pad (w1 s w2 : str) :
  blank w1 = true -> blank w2 = true ->
  normalize_text (w1 ++ s ++ w2) = normalize_text s.
Proof.
  intros H1 H2. unfold normalize_text. rewrite (strip_pad w1 s w2 H1 H2).
  reflexivity.
Qed.

Lemma normalize_text_lower (s : str) :
  normalize_text (lower s) = normalize_text s.
Proof. unfold normalize_text. rewrite strip_lower, lower_lower. reflexivity. Qed.

(** X3.  Normalisation does not see whitespace put around a string, nor
    whether the string was lower-cased before. *)
Theorem normalize_text_insensitive (w1 s w2 : str) :
  blank w1 = true -> blank w2 = true ->
  normalize_text (w1 ++ s ++ w2) = normalize_text s /\
  normalize_text (lower s) = normalize_text s.
Proof.
  intros H1 H2. split.
  - apply normalize_text_pad; assumption.
  - apply normalize_text_lower.
Qed.

Lemma normalize_text_insensitive_witness :
  normalize_text ([0x09; 0x0A] ++ u "Card ARRIVAL" ++ [0x20; 0x3000])
  = normalize_text (u "Card ARRIVAL") /\
  normalize_text (lower (u "Card ARRIVAL")) = normalize_text (u "Card ARRIVAL").
Proof.
  apply (normalize_text_insensitive [0x09; 0x0A] (u "Card ARRIVAL") [0x20; 0x3000]);
    reflexivity.
Defined.

(** ** Counting words *)

Lemma split_from_length (s : str) :
  forall cur, List.length (split_from cur s) = wcount (truthy cur) s.
Proof.
  induction s as [|c s IH]; intros cur; cbn [split_from wcount].
  - destruct cur; reflexivity.
  - destruct (isspace c).
    + destruct cur; cbn [truthy List.length]; rewrite (IH []); reflexivity.
    + rewrite (IH (c :: cur)). reflexivity.
Qed.

Lemma wcount_blank (w : str) (b : bool) :
  blank w = true -> wcount b w = if b then 1%nat else 0%nat.
Proof.
  unfold blank. revert b. induction w as [|c w IH]; intros b H; [reflexivity|].
  cbn [forallb] in H. apply andb_true_iff in H. destruct H as [Hc Hw].
  cbn [wcount]. rewrite Hc, (IH false Hw). destruct b; reflexivity.
Qed.

Lemma wcount_pad_after (t w : str) :
  forall b, blank w = true -> wcount b (t ++ w) = wcount b t.
Proof.
  induction t as [|c t IH]; intros b H.
  - cbn [app]. rewrite (wcount_blank w b H). reflexivity.
  - cbn [app wcount]. destruct (isspace c); rewrite IH by exact H; reflexivity.
Qed.

Lemma wcount_pad_before (w t : str) :
  blank w = true -> wcount false (w ++ t) = wcount false t.
Proof.
  unfold blank. induction w as [|c w IH]; intros H; [reflexivity|].
  cbn [forallb] in H. apply andb_true_iff in H. destruct H as [Hc Hw].
  cbn [app wcount]. rewrite Hc. exact (IH Hw).
Qed.

Lemma wcount_strip (s : str) : wcount false (strip s) = wcount false s.
Proof.
  destruct (strip_split s) as [w1 [w2 [H1 [H2 E]]]].
  rewrite E at 2. rewrite (wcount_pad_before w1 _ H1), (wcount_pad_after _ w2 _ H2).
  reflexivity.
Qed.

Lemma wcount_word (x rest : str) (b : bool) :
  x <> [] -> forallb (fun d => negb (isspace d)) x = true ->
  wcount b (x ++ rest) = wcount true rest.
Proof.
  revert b. induction x as [|d x IH]; intros b Hne H; [congruence|].
  cbn [forallb] in H. apply andb_true_iff in H. destruct H as [Hd Hx].
  apply negb_true_iff in Hd. cbn [app wcount]. rewrite Hd.
  destruct x as [|d' x]; [reflexivity|].
  apply IH; [discriminate | exact Hx].
Qed.

Lemma wcount_lower_from (s : str) :
  forall bf b, wcount b (lower_from bf s) = wcount b s.
Proof.
  induction s as [|c s IH]; intros bf b; [reflexivity|].
  cbn [lower_from wcount]. destruct (isspace c) eqn:Ec.
  - rewrite (stableb_lower_at bf c s (isspace_stable c Ec)).
    cbn [app wcount]. rewrite Ec, IH. reflexivity.
  - rewrite wcount_word.
    + apply IH.
    + apply lower_at_nonempty.
    + apply forallb_forall. intros d Hd. apply negb_true_iff.
      apply (lower_at_image bf c s d Hd), Ec.
Qed.

Lemma wcount_sub_ws (s : str) :
  (forall b, wcount b (sub_ws false s) = wcount b s) /\
  wcount false (sub_ws true s) = wcount false s.
Proof.
  assert (E : isspace 0x20 = true) by (vm_compute; reflexivity).
  induction s as [|c s [IH1 IH2]]; [split; reflexivity|].
  cbn [sub_ws wcount]. destruct (isspace c) eqn:Ec.
  - split.
    + intros b. cbn [wcount]. rewrite E, IH2. reflexivity.
    + rewrite IH2. reflexivity.
  - split; [intros b|]; cbn [wcount]; rewrite Ec; apply IH1.
Qed.

(** Normalisation keeps the number of words. *)
Lemma split_normalize_text (s : str) :
  List.length (split (normalize_text s)) = List.length (split s).
Proof.
  unfold split. rewrite !split_from_length. cbn [truthy].
  unfold normalize_text, re_sub_ws, lower.
  rewrite (proj1 (wcount_sub_ws _)), wcount_lower_from. apply wcount_strip.
Qed.

Lemma greetings_short (q : str) :
  In q GREETINGS -> (List.length (split q) <= 2)%nat.
Proof.
  intros H.
  assert (A : forallb (fun g => (List.length (split g) <=? 2)%nat) GREETINGS = true)
    by (vm_compute; reflexivity).
  rewrite forallb_forall in A. apply Nat.leb_le, A, H.
Qed.

(** X4.  [classify_intent] asks the model exactly when the inquiry, as
    typed, has more than two whitespace-separated words; the test for
    greetings never decides, every greeting being that short. *)
Theorem classify_intent_asks_iff_long (inquiry : str) :
  ((List.length (split inquiry) <= 2)%nat ->
   classify_intent inquiry = Done (Return (u "customer service"))) /\
  ((2 < List.length (split inquiry))%nat ->
   exists k, classify_intent inquiry = ChatComplete (CLASSIFY_PROMPT inquiry) false k).
Proof.
  unfold classify_intent. split; intros H.
  - rewrite split_normalize_text. apply Nat.leb_le in H. rewrite H. reflexivity.
  - rewrite split_normalize_text.
    assert (G : str_in (normalize_text inquiry) GREETINGS = false).
    { apply str_in_not_In. intros HG. apply greetings_short in HG.
      rewrite split_normalize_text in HG. lia. }
    apply Nat.leb_gt in H. rewrite H, G. cbn [orb].
    unfold mistral_chat, chat_complete. cbn [try_except bind].
    eexists. reflexivity.
Qed.

Lemma classify_intent_asks_iff_long_witness :
  classify_intent (u "  Lost   card ") = Done (Return (u "customer service")) /\
  exists k, classify_intent (u "I lost my card")
            = ChatComplete (CLASSIFY_PROMPT (u "I lost my card")) false k.
Proof.
  split.
  - apply (classify_intent_asks_iff_long (u "  Lost   card ")).
    apply Nat.leb_le. vm_compute. reflexivity.
  - apply (classify_intent_asks_iff_long (u "I lost my card")).
    apply Nat.leb_gt. vm_compute. reflexivity.
Defined.

(** ** More on category matching *)

(** No category occurs inside another: on a category the search finds
    that category. *)
Lemma scan_categories_exact (r : str) :
  In r ALLOWED_CATEGORIES -> scan_categories r = r.
Proof.
  intros H.
  assert (A : forallb (fun c => str_eqb (scan_categories c) c) ALLOWED_CATEGORIES = true)
    by (vm_compute; reflexivity).
  rewrite forallb_forall in A. apply str_eqb_eq, A, H.
Qed.

Lemma parse_category_scan_categories (raw : str) :
  blank raw = false ->
  parse_category raw = Return (scan_categories (normalize_text raw)).
Proof.
  intros B. rewrite (parse_category_not_blank raw B).
  unfold parse_category_simple.
  destruct (str_in (normalize_text raw) ALLOWED_CATEGORIES) eqn:D;
    [|reflexivity].
  apply str_in_In in D. rewrite (scan_categories_exact _ D). reflexivity.
Qed.

(** X5.  [parse_category] raises exactly on the responses that hold
    nothing but whitespace, the empty one among them, and what it raises
    is [IndexError]; on every other response it returns an allowed
    category. *)
Theorem parse_category_raises_iff_blank (raw : str) :
  (forall e, parse_category raw = Raise e <-> blank raw = true /\ e = IndexError) /\
  (blank raw = false ->
   exists c, parse_category raw = Return c /\ In c ALLOWED_CATEGORIES).
Proof.
  split.
  - intros e. split.
    + apply parse_category_raises.
    + intros [B ->]. apply parse_category_blank, B.
  - intros B. exists (parse_category_simple raw).
    pose proof (parse_category_not_blank raw B) as E. split; [exact E|].
    apply (parse_category_allowed raw _ E).
Qed.

Lemma parse_category_raises_iff_blank_witness :
  exists c, parse_category (u "Sure: CHANGE  pin") = Return c /\
            In c ALLOWED_CATEGORIES.
Proof.
  apply (parse_category_raises_iff_blank (u "Sure: CHANGE  pin")). reflexivity.
Defined.

(** X6.  On a response that is not blank the test for a direct match
    never decides: what is returned is what the search through the
    categories finds in the normalised response, the fallback category
    when it finds none. *)
Theorem parse_category_is_search (raw : str) :
  blank raw = false ->
  parse_category raw =
  Return match find (fun c => contains c (normalize_text raw)) ALLOWED_CATEGORIES with
         | Some c => c
         | None => u "customer service"
         end.
Proof. apply parse_category_scan_categories. Qed.

Lemma parse_category_is_search_witness :
  parse_category (u " Exchange Rate ") = Return (u "exchange rate").
Proof.
  rewrite (parse_category_is_search (u " Exchange Rate ")) by reflexivity.
  vm_compute. reflexivity.
Defined.

(** X7.  [parse_category] does not see whitespace put around the
    response, whether the response was lower-cased, or whether it was
    normalised before. *)
Theorem parse_category_insensitive (w1 raw w2 : str) :
  blank w1 = true -> blank w2 = true ->
  parse_category (w1 ++ raw ++ w2) = parse_category raw /\
  parse_category (lower raw) = parse_category raw /\
  parse_category (normalize_text raw) = parse_category raw.
Proof.
  intros H1 H2. unfold parse_category.
  rewrite (normalize_text_pad w1 raw w2 H1 H2), normalize_text_lower.
  rewrite (normal_fixed _ (normalize_text_normal raw)). auto.
Qed.

Lemma parse_category_insensitive_witness :
  parse_category ([NL] ++ u "Charge Dispute" ++ [NL])
  = parse_category (u "Charge Dispute").
Proof.
  apply (parse_category_insensitive [NL] (u "Charge Dispute") [NL]); reflexivity.
Defined.

(** X8.  What a returned category tells about the response: either it
    occurs in the normalised response and no category listed before it
    does, or it is the fallback category and no category occurs at all. *)
Theorem parse_category_returned (raw c : str) :
  parse_category raw = Return c ->
  (exists pre post,
      ALLOWED_CATEGORIES = pre ++ c :: post /\
      (exists a b, normalize_text raw = a ++ c ++ b) /\
      forall c', In c' pre -> contains c' (normalize_text raw) = false) \/
  (c = u "customer service" /\
   forall c', In c' ALLOWED_CATEGORIES -> contains c' (normalize_text raw) = false).
Proof.
  intros H. destruct (blank raw) eqn:B.
  - rewrite (parse_category_blank raw B) in H. discriminate.
  - rewrite (parse_category_scan_categories raw B) in H. injection H as <-.
    unfold scan_categories.
    destruct (find (fun c => contains c (normalize_text raw)) ALLOWED_CATEGORIES)
      as [c|] eqn:F.
    + left. revert F. generalize ALLOWED_CATEGORIES as l.
      induction l as [|x l IH]; cbn [find]; [discriminate|].
      destruct (contains x (normalize_text raw)) eqn:Cx.
      * intros E. injection E as ->. exists [], l. split; [reflexivity|].
        split; [apply contains_substring, Cx | intros c' []].
      * intros E. destruct (IH E) as [pre [post [El [Hc Hpre]]]].
        exists (x :: pre), post. split; [rewrite El; reflexivity|].
        split; [exact Hc|]. intros c' [<- | Hc']; [exact Cx | apply Hpre, Hc'].
    + right. split; [reflexivity|]. intros c' Hc'.
      apply (find_none _ _ F c' Hc').
Qed.

Lemma parse_category_returned_witness :
  (exists pre post,
      ALLOWED_CATEGORIES = pre ++ u "change pin" :: post /\
      (exists a b, normalize_text (u "Change PIN!") = a ++ u "change pin" ++ b) /\
      forall c', In c' pre -> contains c' (normalize_text (u "Change PIN!")) = false) \/
  (u "change pin" = u "customer service" /\
   forall c', In c' ALLOWED_CATEGORIES ->
              contains c' (normalize_text (u "Change PIN!")) = false).
Proof.
  apply (parse_category_returned (u "Change PIN!") (u "change pin")).
  vm_compute. reflexivity.
Defined.

(** ** More on the calls of the model *)

Lemma run_mistral_chat (svc : service) (log : list call) (p : str) (j : bool) :
  run svc log (mistral_chat p j) =
  match svc log (p, j) with
  | Return r => (r, log ++ [(p, j)])
  | Raise e =>
      if isinstance e "TypeError"
      then (content_of (svc (log ++ [(p, j)]) (p, false)),
            (log ++ [(p, j)]) ++ [(p, false)])
      else (Raise e, log ++ [(p, j)])
  end.
Proof.
  unfold mistral_chat, chat_complete. cbn [try_except bind run].
  destruct (svc log (p, j)) as [r | e].
  - cbn [try_except bind run]. destruct r; reflexivity.
  - cbn [try_except]. destruct (isinstance e "TypeError"); cbn [bind run].
    + destruct (svc (log ++ [(p, j)]) (p, false)) as [r | e'];
        cbn [bind run content_of]; [destruct r|]; reflexivity.
    + reflexivity.
Qed.

(** The requests of one [mistral_chat]: one or two, all with its
    prompt, the first with its format and the second without JSON. *)
Lemma mistral_chat_log (svc : service) (log : list call) (p : str) (j : bool) :
  exists extra,
    snd (run svc log (mistral_chat p j)) = log ++ extra /\
    (extra = [(p, j)] \/ extra = [(p, j); (p, false)]).
Proof.
  rewrite run_mistral_chat. destruct (svc log (p, j)) as [r | e].
  - exists [(p, j)]. auto.
  - destruct (isinstance e "TypeError").
    + exists [(p, j); (p, false)]. cbn [snd]. rewrite <- app_assoc. auto.
    + exists [(p, j)]. auto.
Qed.

(** X9.  [mistral_chat] makes one request and returns the content of
    its response, unless the request raises [TypeError]: then it makes
    one more, without the JSON format, and whatever that one gives is
    final, a second [TypeError] included. *)
Theorem mistral_chat_retries_once (svc : service) (log : list call)
        (p : str) (j : bool) :
  ((forall e, svc log (p, j) = Raise e -> isinstance e "TypeError" = false) ->
   run svc log (mistral_chat p j) = (content_of (svc log (p, j)), log ++ [(p, j)])) /\
  (forall e, svc log (p, j) = Raise e -> isinstance e "TypeError" = true ->
   run svc log (mistral_chat p j) =
   (content_of (svc (log ++ [(p, j)]) (p, false)), log ++ [(p, j); (p, false)])).
Proof.
  rewrite run_mistral_chat. split.
  - intros H. destruct (svc log (p, j)) as [r | e]; [reflexivity|].
    rewrite (H e eq_refl). reflexivity.
  - intros e E T. rewrite E, T, <- app_assoc. reflexivity.
Qed.

Lemma mistral_chat_retries_once_witness :
  run (fun log c => if snd c
                    then Raise {| exn_classes := ["TypeError"; "Exception";
                                                  "BaseException"]%string |}
                    else Return (Return (u "{}")))
      [] (mistral_chat (u "extract") true)
  = (Return (u "{}"), [(u "extract", true); (u "extract", false)]).
Proof.
  destruct (mistral_chat_retries_once
              (fun log c => if snd c
                            then Raise {| exn_classes := ["TypeError"; "Exception";
                                                          "BaseException"]%string |}
                            else Return (Return (u "{}")))
              [] (u "extract") true) as [_ B].
  apply (B _ eq_refl eq_refl).
Defined.

(** ** More on classification *)

(** X10.  Past the shortcut, when the first request returns a response
    whose content is [raw], [classify_intent] makes no other request and
    returns the fallback category on a blank [raw], and otherwise what
    the search through the categories finds in the normalised [raw]: an
    answer that is a category up to case and whitespace gives that
    category. *)
Theorem classify_intent_of_answer (inquiry raw : str) (svc : service)
        (log : list call) :
  (2 < List.length (split inquiry))%nat ->
  svc log (CLASSIFY_PROMPT inquiry, false) = Return (Return raw) ->
  run svc log (classify_intent inquiry) =
  (Return (if blank raw then u "customer service"
           else scan_categories (normalize_text raw)),
   log ++ [(CLASSIFY_PROMPT inquiry, false)]) /\
  (In (normalize_text raw) ALLOWED_CATEGORIES ->
   run svc log (classify_intent inquiry) =
   (Return (normalize_text raw), log ++ [(CLASSIFY_PROMPT inquiry, false)])).
Proof.
  intros Hlen E.
  assert (G : (List.length (split (normalize_text inquiry)) <=? 2)%nat
              || str_in (normalize_text inquiry) GREETINGS = false).
  { rewrite split_normalize_text. apply Nat.leb_gt in Hlen. rewrite Hlen.
    apply str_in_not_In. intros HG. apply greetings_short in HG.
    rewrite split_normalize_text in HG. apply Nat.leb_gt in Hlen. lia. }
  rewrite (run_classify_intent inquiry svc log G), run_mistral_chat, E.
  destruct (blank raw) eqn:B.
  - rewrite (parse_category_blank raw B). split; [reflexivity|].
    intros H. exfalso. apply normalize_text_nil in B. rewrite B in H.
    apply str_in_In in H. vm_compute in H. discriminate.
  - rewrite (parse_category_scan_categories raw B). split; [reflexivity|].
    intros H. rewrite (scan_categories_exact _ H). reflexivity.
Qed.

Lemma classify_intent_of_answer_witness :
  run (fun _ _ => Return (Return (u "Country Support" ++ [NL]))) []
      (classify_intent (u "Does your card work in Germany?"))
  = (Return (u "country support"),
     [(CLASSIFY_PROMPT (u "Does your card work in Germany?"), false)]).
Proof.
  destruct (classify_intent_of_answer (u "Does your card work in Germany?")
              (u "Country Support" ++ [NL])
              (fun _ _ => Return (Return (u "Country Support" ++ [NL]))) []
              ltac:(apply Nat.leb_gt; vm_compute; reflexivity) eq_refl) as [_ B].
  apply B. apply str_in_In. vm_compute. reflexivity.
Defined.

(** [classify_intent] returns nothing but allowed categories, and does
    return against a service that raises only errors. *)
Lemma run_classify_intent_allowed (inquiry : str) (svc : service)
      (log log' : list call) (c : str) :
  run svc log (classify_intent inquiry) = (Return c, log') ->
  In c ALLOWED_CATEGORIES.
Proof.
  destruct ((List.length (split (normalize_text inquiry)) <=? 2)%nat
            || str_in (normalize_text inquiry) GREETINGS) eqn:G.
  - unfold classify_intent. rewrite G. cbn [run]. intros H.
    injection H as <- _. apply fallback_allowed.
  - rewrite (run_classify_intent inquiry svc log G).
    destruct (run svc log (mistral_chat (CLASSIFY_PROMPT inquiry) false))
      as [[raw | e] l].
    + intros H. injection H as <- _.
      destruct (parse_category raw) as [c | e] eqn:Q.
      * apply (parse_category_allowed raw c Q).
      * apply fallback_allowed.
    + destruct (isinstance e "Exception"); [|discriminate].
      intros H. injection H as <- _. apply fallback_allowed.
Qed.

Lemma run_classify_intent_returns (inquiry : str) (svc : service)
      (log : list call) :
  raises_errors_only svc ->
  exists c log', run svc log (classify_intent inquiry) = (Return c, log').
Proof.
  intros W.
  destruct ((List.length (split (normalize_text inquiry)) <=? 2)%nat
            || str_in (normalize_text inquiry) GREETINGS) eqn:G.
  - unfold classify_intent. rewrite G. cbn [run]. eauto.
  - rewrite (run_classify_intent inquiry svc log G).
    destruct (run svc log (mistral_chat (CLASSIFY_PROMPT inquiry) false))
      as [[raw | e] l] eqn:M; [eauto|].
    rewrite (mistral_chat_raises svc _ _ _ _ _ W M). eauto.
Qed.

(** The requests of one [classify_intent]: at most two, all with the
    classification prompt and without the JSON format. *)
Lemma classify_intent_log (inquiry : str) (svc : service) (log : list call) :
  exists extra,
    snd (run svc log (classify_intent inquiry)) = log ++ extra /\
    (List.length extra <= 2)%nat /\
    forall r, In r extra -> r = (CLASSIFY_PROMPT inquiry, false).
Proof.
  destruct ((List.length (split (normalize_text inquiry)) <=? 2)%nat
            || str_in (normalize_text inquiry) GREETINGS) eqn:G.
  - unfold classify_intent. rewrite G. cbn [run snd]. exists [].
    rewrite app_nil_r. split; [reflexivity|]. split; [cbn; lia | intros r []].
  - rewrite (run_classify_intent inquiry svc log G).
    destruct (mistral_chat_log svc log (CLASSIFY_PROMPT inquiry) false)
      as [extra [E Hx]].
    exists extra. split.
    + destruct (run svc log (mistral_chat (CLASSIFY_PROMPT inquiry) false))
        as [[raw | e] l]; cbn [snd] in *; [exact E|].
      destruct (isinstance e "Exception"); exact E.
    + destruct Hx as [-> | ->]; (split; [cbn; lia|]).
      * intros r [<- | []]. reflexivity.
      * intros r [<- | [<- | []]]; reflexivity.
Qed.

(** ** More on answering *)

(** The keys of [KB] are the allowed categories, in their order. *)
Lemma KB_keys : map fst KB = ALLOWED_CATEGORIES.
Proof. vm_compute. reflexivity. Qed.

Lemma KB_lookup_none (c : str) :
  ~ In c ALLOWED_CATEGORIES -> KB_lookup c = None.
Proof.
  intros H. unfold KB_lookup.
  destruct (find (fun kv => str_eqb (fst kv) c) KB) as [kv|] eqn:F; [|reflexivity].
  exfalso. apply find_some in F. destruct F as [Hin E].
  apply str_eqb_eq in E. apply H. rewrite <- KB_keys, <- E.
  apply in_map, Hin.
Qed.

(** X11.  When the answering request returns a response, [compose]
    returns its content stripped, as it is: a blank content gives the
    empty answer, not the guidance. *)
Theorem compose_of_answer (category inquiry s : str) (svc : service)
        (log : list call) :
  let guidance := KB_get category (u "Tell me your issue and I will guide you.") in
  svc log (ANSWER_PROMPT guidance inquiry, false) = Return (Return s) ->
  run svc log (compose category inquiry) =
  (Return (strip s), log ++ [(ANSWER_PROMPT guidance inquiry, false)]) /\
  (blank s = true ->
   run svc log (compose category inquiry) =
   (Return [], log ++ [(ANSWER_PROMPT guidance inquiry, false)])).
Proof.
  intros guidance E.
  pose proof (run_compose category inquiry svc log) as R. cbv zeta in R.
  fold guidance in R. rewrite R, run_mistral_chat, E.
  split; [reflexivity|]. intros B. apply strip_nil in B. rewrite B. reflexivity.
Qed.

Lemma compose_of_answer_witness :
  fst (run (fun _ _ => Return (Return (u "  Use the app. " ++ [NL]))) []
           (compose (u "change pin") (u "How do I change my PIN?")))
  = Return (u "Use the app.").
Proof.
  destruct (compose_of_answer (u "change pin") (u "How do I change my PIN?")
              (u "  Use the app. " ++ [NL])
              (fun _ _ => Return (Return (u "  Use the app. " ++ [NL]))) []
              eq_refl) as [A _].
  rewrite A. vm_compute. reflexivity.
Defined.

(** X12.  A category that [KB] does not hold is answered as the
    fallback category is: same requests, same answer. *)
Theorem compose_unknown_category (category inquiry : str) (svc : service)
        (log : list call) :
  ~ In category ALLOWED_CATEGORIES ->
  run svc log (compose category inquiry) =
  run svc log (compose (u "customer service") inquiry).
Proof.
  intros H. rewrite !run_compose. unfold KB_get.
  rewrite (KB_lookup_none category H).
  replace (KB_lookup (u "customer service"))
    with (Some (u "Tell me your issue and I will guide you."))
    by (vm_compute; reflexivity).
  reflexivity.
Qed.

Lemma compose_unknown_category_witness :
  run (fun _ _ => Raise IndexError) [] (compose (u "loans") (u "Can I get a loan?"))
  = run (fun _ _ => Raise IndexError) []
        (compose (u "customer service") (u "Can I get a loan?")).
Proof.
  apply (compose_unknown_category (u "loans") (u "Can I get a loan?")).
  apply str_in_not_In. vm_compute. reflexivity.
Defined.

Lemma run_compose_returns (category inquiry : str) (svc : service)
      (log : list call) :
  raises_errors_only svc ->
  exists a log', run svc log (compose category inquiry) = (Return a, log').
Proof.
  intros W. pose proof (run_compose category inquiry svc log) as R.
  cbv zeta in R. rewrite R.
  destruct (run svc log (mistral_chat _ false)) as [[s | e] l] eqn:M; [eauto|].
  rewrite (mistral_chat_raises svc _ _ _ _ _ W M). eauto.
Qed.

(** The requests of one [compose]: one or two, all with the answering
    prompt for the guidance of the category, without the JSON format. *)
Lemma compose_log (category inquiry : str) (svc : service) (log : list call) :
  exists extra,
    snd (run svc log (compose category inquiry)) = log ++ extra /\
    (1 <= List.length extra <= 2)%nat /\
    forall r, In r extra ->
      r = (ANSWER_PROMPT
             (KB_get category (u "Tell me your issue and I will guide you."))
             inquiry, false).
Proof.
  pose proof (run_compose category inquiry svc log) as R. cbv zeta in R.
  rewrite R.
  destruct (mistral_chat_log svc log
              (ANSWER_PROMPT
                 (KB_get category (u "Tell me your issue and I will guide you."))
                 inquiry) false) as [extra [E Hx]].
  exists extra. split.
  - destruct (run svc log (mistral_chat _ false)) as [[s | e] l];
      cbn [snd] in *; [exact E|].
    destruct (isinstance e "Exception"); exact E.
  - destruct Hx as [-> | ->]; (split; [cbn; lia|]).
    + intros r [<- | []]. reflexivity.
    + intros r [<- | [<- | []]]; reflexivity.
Qed.

(** ** More on the send handler *)

Lemma truthy_strip (msg : str) : truthy (strip msg) = negb (blank msg).
Proof.
  destruct (blank msg) eqn:B.
  - apply strip_nil in B. rewrite B. reflexivity.
  - destruct (strip msg) eqn:S; [|reflexivity].
    apply strip_nil in S. congruence.
Qed.

(** What a send of a message that is not blank does, in terms of the
    classification and the answering. *)
Lemma run_send_handler (msg : str) (st : session_state) (svc : service)
      (log : list call) :
  blank msg = false ->
  run svc log (send_handler true msg st) =
  match run svc log (classify_intent (strip msg)) with
  | (Raise e, l1) => (Raise e, l1)
  | (Return c, l1) =>
      match run svc l1 (compose c (strip msg)) with
      | (Raise e, l2) => (Raise e, l2)
      | (Return a, l2) =>
          (Return (bump_draft
                     (append_turn {| role := assistant; text := a; cat := Some c |}
                        (append_turn {| role := user; text := strip msg; cat := None |}
                           st))), l2)
      end
  end.
Proof.
  intros B. unfold send_handler. rewrite truthy_strip, B. cbn [negb andb].
  rewrite run_bind.
  destruct (run svc log (classify_intent (strip msg))) as [[c | e] l1];
    [|reflexivity].
  rewrite run_bind.
  destruct (run svc l1 (compose c (strip msg))) as [[a | e] l2]; reflexivity.
Qed.

(** X13.  A send of a message that is not blank, when it returns, has
    added two turns after the history it found: the user's, with the
    message stripped, and the assistant's, with an allowed category; the
    draft version is one more and the pending text is as it was.  It
    does return against a service that raises only errors. *)
Theorem send_appends_exchange (msg : str) (st : session_state) (svc : service)
        (log : list call) :
  blank msg = false ->
  (forall st' log',
     run svc log (send_handler true msg st) = (Return st', log') ->
     exists c a,
       In c ALLOWED_CATEGORIES /\
       chat_history st' =
       chat_history st ++ [ {| role := user; text := strip msg; cat := None |};
                            {| role := assistant; text := a; cat := Some c |} ] /\
       pending_text st' = pending_text st /\
       draft_version st' = draft_version st + 1) /\
  (raises_errors_only svc ->
   exists st' log', run svc log (send_handler true msg st) = (Return st', log')).
Proof.
  intros B. rewrite (run_send_handler msg st svc log B). split.
  - intros st' log'.
    destruct (run svc log (classify_intent (strip msg))) as [[c | e] l1] eqn:C;
      [|discriminate].
    destruct (run svc l1 (compose c (strip msg))) as [[a | e] l2];
      [|discriminate].
    intros H. injection H as <- _. exists c, a.
    split; [exact (run_classify_intent_allowed _ _ _ _ _ C)|].
    cbn [bump_draft append_turn chat_history pending_text draft_version].
    rewrite <- app_assoc. auto.
  - intros W.
    destruct (run_classify_intent_returns (strip msg) svc log W) as [c [l1 C]].
    rewrite C.
    destruct (run_compose_returns c (strip msg) svc l1 W) as [a [l2 A]].
    rewrite A. eauto.
Qed.

Lemma send_appends_exchange_witness :
  exists st' log',
    run (fun _ _ => Return (Return (u "change pin"))) []
        (send_handler true (u " How do I change my PIN? ")
           {| chat_history := []; pending_text := []; draft_version := 0 |})
    = (Return st', log').
Proof.
  destruct (send_appends_exchange (u " How do I change my PIN? ")
              {| chat_history := []; pending_text := []; draft_version := 0 |}
              (fun _ _ => Return (Return (u "change pin"))) [] eq_refl) as [_ T].
  apply T. intros log c e [H | H]; discriminate H.
Defined.

Lemma mistral_chat_outage (svc : service) (log : list call) (p : str) (j : bool) :
  (forall l c, exists e, svc l c = Raise e /\ isinstance e "Exception" = true) ->
  exists e log',
    run svc log (mistral_chat p j) = (Raise e, log') /\
    isinstance e "Exception" = true.
Proof.
  intros H. rewrite run_mistral_chat.
  destruct (H log (p, j)) as [e [E I]]. rewrite E.
  destruct (isinstance e "TypeError"); [|eauto].
  destruct (H (log ++ [(p, j)]) (p, false)) as [e' [E' I']]. rewrite E'.
  cbn [content_of]. eauto.
Qed.

(** X14.  While every request to the model raises an error, a send of
    a message that is not blank still answers: the history gains the
    user's turn and an assistant turn in the fallback category whose
    text is the guidance of that category, word for word. *)
Theorem send_during_outage (msg : str) (st : session_state) (svc : service)
        (log : list call) :
  blank msg = false ->
  (forall l c, exists e, svc l c = Raise e /\ isinstance e "Exception" = true) ->
  exists log',
    run svc log (send_handler true msg st) =
    (Return {| chat_history :=
                 chat_history st ++
                 [ {| role := user; text := strip msg; cat := None |};
                   {| role := assistant;
                      text := u "Tell me your issue and I will guide you.";
                      cat := Some (u "customer service") |} ];
               pending_text := pending_text st;
               draft_version := draft_version st + 1 |}, log').
Proof.
  intros B H. rewrite (run_send_handler msg st svc log B).
  assert (C : exists l1, run svc log (classify_intent (strip msg))
                         = (Return (u "customer service"), l1)).
  { destruct ((List.length (split (normalize_text (strip msg))) <=? 2)%nat
              || str_in (normalize_text (strip msg)) GREETINGS) eqn:G.
    - unfold classify_intent. rewrite G. cbn [run]. eauto.
    - rewrite (run_classify_intent _ svc log G).
      destruct (mistral_chat_outage svc log (CLASSIFY_PROMPT (strip msg)) false H)
        as [e [l1 [M I]]].
      rewrite M, I. eauto. }
  destruct C as [l1 C]. rewrite C.
  pose proof (run_compose (u "customer service") (strip msg) svc l1) as R.
  cbv zeta in R. rewrite R.
  destruct (mistral_chat_outage svc l1
              (ANSWER_PROMPT
                 (KB_get (u "customer service")
                         (u "Tell me your issue and I will guide you."))
                 (strip msg)) false H) as [e [l2 [M I]]].
  rewrite M, I. exists l2.
  replace (KB_get (u "customer service")
                  (u "Tell me your issue and I will guide you."))
    with (u "Tell me your issue and I will guide you.")
    by (vm_compute; reflexivity).
  unfold bump_draft, append_turn.
  cbn [chat_history pending_text draft_version].
  rewrite <- app_assoc. reflexivity.
Qed.

Lemma send_during_outage_witness :
  exists log',
    run (fun _ _ => Raise {| exn_classes := ["ConnectionError"; "OSError";
                                             "Exception"; "BaseException"]%string |})
        [] (send_handler true (u "I was charged twice by a merchant.")
              {| chat_history := []; pending_text := []; draft_version := 0 |})
    = (Return {| chat_history :=
                   [ {| role := user;
                        text := u "I was charged twice by a merchant.";
                        cat := None |};
                     {| role := assistant;
                        text := u "Tell me your issue and I will guide you.";
                        cat := Some (u "customer service") |} ];
                 pending_text := [];
                 draft_version := 1 |}, log').
Proof.
  apply (send_during_outage (u "I was charged twice by a merchant.")
           {| chat_history := []; pending_text := []; draft_version := 0 |}
           (fun _ _ => Raise {| exn_classes := ["ConnectionError"; "OSError";
                                                "Exception"; "BaseException"]%string |})
           [] eq_refl).
  intros l c. eexists. split; reflexivity.
Defined.

(** X15.  The requests of a send: at most two for the classification,
    then at most two for the answer, none with the JSON format; those
    for the answer carry the guidance of one allowed category, and no
    other guidance. *)
Theorem send_requests (send : bool) (msg : str) (st : session_state)
        (svc : service) (log : list call) :
  exists asked answered c g,
    snd (run svc log (send_handler send msg st)) = log ++ asked ++ answered /\
    (List.length asked <= 2)%nat /\ (List.length answered <= 2)%nat /\
    (forall r, In r asked -> r = (CLASSIFY_PROMPT (strip msg), false)) /\
    In c ALLOWED_CATEGORIES /\ KB_lookup c = Some g /\
    (forall r, In r answered -> r = (ANSWER_PROMPT g (strip msg), false)).
Proof.
  assert (Nothing : forall l,
             exists asked answered c g,
               l = l ++ asked ++ answered /\
               (List.length asked <= 2)%nat /\ (List.length answered <= 2)%nat /\
               (forall r, In r asked -> r = (CLASSIFY_PROMPT (strip msg), false)) /\
               In c ALLOWED_CATEGORIES /\ KB_lookup c = Some g /\
               (forall r, In r answered -> r = (ANSWER_PROMPT g (strip msg), false))).
  { intros l. destruct (KB_total _ fallback_allowed) as [g Hg].
    exists [], [], (u "customer service"), g. rewrite app_nil_r.
    repeat split; auto using fallback_allowed; try (cbn; lia); intros r []. }
  destruct send; [|apply Nothing].
  destruct (blank msg) eqn:B.
  - unfold send_handler. rewrite truthy_strip, B. apply Nothing.
  - rewrite (run_send_handler msg st svc log B).
    destruct (classify_intent_log (strip msg) svc log) as [asked [E1 [L1 P1]]].
    destruct (run svc log (classify_intent (strip msg))) as [[c | e] l1] eqn:C;
      cbn [snd] in E1; subst l1.
    + pose proof (run_classify_intent_allowed _ _ _ _ _ C) as Hc.
      destruct (KB_total c Hc) as [g Hg].
      destruct (compose_log c (strip msg) svc (log ++ asked))
        as [answered [E2 [L2 P2]]].
      unfold KB_get in P2. rewrite Hg in P2.
      exists asked, answered, c, g.
      split; [|repeat split; auto; lia].
      destruct (run svc (log ++ asked) (compose c (strip msg))) as [[a | e] l2];
        cbn [snd] in *; subst l2; symmetry; apply app_assoc.
    + destruct (KB_total _ fallback_allowed) as [g Hg].
      exists asked, [], (u "customer service"), g. cbn [snd]. rewrite app_nil_r.
      repeat split; auto using fallback_allowed; try (cbn; lia); intros r [].
Qed.

(** ** The chat history over a session *)

Lemma exchanges_app (q a : turn) :
  exchanges [q; a] ->
  forall n h, (List.length h <= n)%nat -> exchanges h -> exchanges (h ++ [q; a]).
Proof.
  intros Hqa. induction n as [|n IH]; intros h Hn Hh.
  - destruct h; [exact Hqa | cbn in Hn; lia].
  - destruct h as [|x [|y rest]]; [exact Hqa | destruct Hh |].
    cbn [exchanges] in Hh.
    destruct Hh as [H1 [H2 [H3 [H4 [H5 [H6 H7]]]]]].
    cbn [app exchanges]. repeat (split; [assumption|]).
    apply IH; [cbn [List.length] in Hn; lia | exact H7].
Qed.

Lemma handle_keeps (ev : event) (st st' : session_state) (svc : service)
      (log log' : list call) :
  exchanges (chat_history st) ->
  run svc log (handle ev st) = (Return st', log') ->
  exchanges (chat_history st') /\ draft_version st <= draft_version st'.
Proof.
  intros Hh. destruct ev as [txt | | | msg]; cbn [handle run].
  - intros H. injection H as <- _. cbn. split; [exact Hh | lia].
  - intros H. injection H as <- _. unfold take_pending. cbn [snd].
    destruct (truthy (pending_text st)); cbn; split; try exact Hh; lia.
  - intros H. injection H as <- _. cbn. split; [exact I | lia].
  - destruct (blank msg) eqn:B.
    + unfold send_handler. rewrite truthy_strip, B. cbn [negb andb run].
      intros H. injection H as <- _. split; [exact Hh | lia].
    + rewrite (run_send_handler msg st svc log B).
      destruct (run svc log (classify_intent (strip msg))) as [[c | e] l1] eqn:C;
        [|discriminate].
      destruct (run svc l1 (compose c (strip msg))) as [[a | e] l2];
        [|discriminate].
      intros H. injection H as <- _.
      cbn [bump_draft append_turn chat_history draft_version]. split; [|lia].
      rewrite <- app_assoc. cbn [app].
      apply (exchanges_app _ _) with (n := List.length (chat_history st));
        [|lia | exact Hh].
      cbn [exchanges role cat text]. repeat split.
      * intros E. apply strip_nil in E. congruence.
      * apply strip_strip.
      * exists c. split; [reflexivity|].
        exact (run_classify_intent_allowed _ _ _ _ _ C).
Qed.

(** X16.  Whatever is done in a session (examples picked, the box
    drawn, Clear or Send pressed, in any order, against any service),
    the chat history stays a sequence of exchanges, a user turn with a
    non-empty stripped text followed by an assistant turn with an
    allowed category, and the draft version never goes down. *)
Theorem session_keeps_exchanges (evs : list event) (svc : service) :
  forall (st st' : session_state) (log log' : list call),
    exchanges (chat_history st) ->
    run svc log (handle_all evs st) = (Return st', log') ->
    exchanges (chat_history st') /\ draft_version st <= draft_version st'.
Proof.
  induction evs as [|ev evs IH]; intros st st' log log' Hh; cbn [handle_all].
  - cbn [run]. intros H. injection H as <- _. split; [exact Hh | lia].
  - rewrite run_bind.
    destruct (run svc log (handle ev st)) as [[st1 | e] l1] eqn:E; [|discriminate].
    intros H. destruct (handle_keeps ev st st1 svc log l1 Hh E) as [K1 K2].
    destruct (IH st1 st' l1 log' K1 H) as [K3 K4]. split; [exact K3 | lia].
Qed.

Lemma session_keeps_exchanges_witness :
  exists st' log',
    run (fun _ _ => Return (Return (u "card arrival"))) []
        (handle_all [ExamplePicked (u "Where is my card?"); BoxDrawn; ClearPressed;
                     SendPressed (u "Where is my card?"); SendPressed (u "   ")]
           {| chat_history := []; pending_text := []; draft_version := 0 |})
    = (Return st', log') /\
    exchanges (chat_history st') /\ 0 <= draft_version st'.
Proof.
  destruct (run (fun _ _ => Return (Return (u "card arrival"))) []
              (handle_all [ExamplePicked (u "Where is my card?"); BoxDrawn;
                           ClearPressed; SendPressed (u "Where is my card?");
                           SendPressed (u "   ")]
                 {| chat_history := []; pending_text := []; draft_version := 0 |}))
    as [[st' | e] log'] eqn:R.
  - exists st', log'. split; [reflexivity|].
    apply (session_keeps_exchanges _ _
             {| chat_history := []; pending_text := []; draft_version := 0 |}
             _ _ _ I R).
  - exfalso. vm_compute in R. discriminate R.
Defined.

(** ** Cleaning a JSON answer *)

Lemma contains_strip (sub s : str) :
  contains sub (strip s) = true -> contains sub s = true.
Proof.
  intros H. apply contains_substring in H. destruct H as [a [b E]].
  destruct (strip_split s) as [w1 [w2 [_ [_ Es]]]].
  apply contains_substring. exists (w1 ++ a), (b ++ w2).
  rewrite Es at 1. rewrite E, <- !app_assoc. reflexivity.
Qed.

Lemma contains_longer (sub more s : str) :
  contains (sub ++ more) s = true -> contains sub s = true.
Proof.
  intros H. apply contains_substring in H. destruct H as [a [b E]].
  apply contains_substring. exists a, (more ++ b).
  rewrite E, <- !app_assoc. reflexivity.
Qed.

Lemma replace_from_absent (old new s : str) :
  contains old s = false -> replace_from 0 old new s = s.
Proof.
  induction s as [|c s IH]; [reflexivity|].
  cbn [contains]. intros H. apply orb_false_iff in H. destruct H as [H1 H2].
  cbn [replace_from]. rewrite H1, (IH H2). reflexivity.
Qed.

Lemma startswith_app (old rest : str) : startswith old (old ++ rest) = true.
Proof. apply startswith_prefix. exists rest. reflexivity. Qed.

Lemma replace_from_skip (p old new rest : str) :
  replace_from (List.length p) old new (p ++ rest) = replace_from 0 old new rest.
Proof.
  induction p as [|c p IH]; [reflexivity|].
  cbn [List.length app replace_from]. exact IH.
Qed.

(** An occurrence at the front is replaced and the scan goes on after it. *)
Lemma replace_from_match (o : Z) (old new rest : str) :
  replace_from 0 (o :: old) new ((o :: old) ++ rest) =
  new ++ replace_from 0 (o :: old) new rest.
Proof.
  cbn [app]. cbn [replace_from].
  change (o :: old ++ rest) with ((o :: old) ++ rest).
  rewrite startswith_app. cbn [List.length Nat.pred].
  rewrite replace_from_skip. reflexivity.
Qed.

(** No occurrence starts where the first code point of [old] is not. *)
Lemma replace_from_pass (o : Z) (old new x rest : str) :
  forallb (fun c => negb (c =? o)) x = true ->
  replace_from 0 (o :: old) new (x ++ rest) =
  x ++ replace_from 0 (o :: old) new rest.
Proof.
  induction x as [|c x IH]; intros H; [reflexivity|].
  cbn [forallb] in H. apply andb_true_iff in H. destruct H as [Hc Hx].
  apply negb_true_iff in Hc. cbn [app replace_from startswith].
  rewrite Z.eqb_sym, Hc. cbn [andb]. rewrite (IH Hx). reflexivity.
Qed.

Lemma startswith_ticks (more s : str) :
  startswith ([BACKTICK; BACKTICK; BACKTICK] ++ more) s = true ->
  (3 <= lead_ticks s)%nat.
Proof.
  destruct s as [|a [|b [|c s]]]; cbn [app startswith lead_ticks];
    try discriminate.
  - rewrite Z.eqb_sym. destruct (a =? BACKTICK); discriminate.
  - rewrite Z.eqb_sym. destruct (a =? BACKTICK); [|discriminate].
    rewrite Z.eqb_sym. destruct (b =? BACKTICK); discriminate.
  - rewrite Z.eqb_sym. destruct (a =? BACKTICK); [|discriminate].
    rewrite Z.eqb_sym. destruct (b =? BACKTICK); [|discriminate].
    rewrite Z.eqb_sym. destruct (c =? BACKTICK); [|discriminate].
    intros _. lia.
Qed.

Lemma ticks_startswith (s : str) :
  (3 <= lead_ticks s)%nat -> startswith [BACKTICK; BACKTICK; BACKTICK] s = true.
Proof.
  destruct s as [|a [|b [|c s]]]; cbn [startswith lead_ticks].
  - lia.
  - destruct (a =? BACKTICK); lia.
  - destruct (a =? BACKTICK); [|lia]. destruct (b =? BACKTICK); lia.
  - destruct (a =? BACKTICK) eqn:Ea; [|lia].
    destruct (b =? BACKTICK) eqn:Eb; [|lia].
    destruct (c =? BACKTICK) eqn:Ec; [|lia].
    rewrite (Z.eqb_sym BACKTICK a), (Z.eqb_sym BACKTICK b), (Z.eqb_sym BACKTICK c).
    rewrite Ea, Eb, Ec. reflexivity.
Qed.

(** Taking the fences out of a string leaves runs of at most two
    backticks: no fence is left, and none is put together from what
    stood on the two sides of one that was taken out. *)
Lemma replace_ticks (s : str) :
  forall k, (k <= lead_ticks s)%nat ->
    (lead_ticks (replace_from k [BACKTICK; BACKTICK; BACKTICK] [] s)
     <= lead_ticks s - k)%nat /\
    contains [BACKTICK; BACKTICK; BACKTICK]
             (replace_from k [BACKTICK; BACKTICK; BACKTICK] [] s) = false.
Proof.
  induction s as [|c s IH]; intros k Hk.
  - cbn [replace_from lead_ticks]. split; [lia | reflexivity].
  - destruct k as [|k].
    + cbn [replace_from].
      destruct (startswith [BACKTICK; BACKTICK; BACKTICK] (c :: s)) eqn:S.
      * apply (startswith_ticks []) in S. cbn [lead_ticks] in S.
        cbn [List.length Nat.pred app lead_ticks].
        destruct (c =? BACKTICK); [|lia].
        destruct (IH 2%nat ltac:(lia)) as [I1 I2]. split; [lia | exact I2].
      * destruct (IH 0%nat ltac:(lia)) as [I1 I2].
        assert (L : (lead_ticks (c :: replace_from 0 [BACKTICK; BACKTICK; BACKTICK] [] s)
                     <= lead_ticks (c :: s))%nat).
        { cbn [lead_ticks]. destruct (c =? BACKTICK); lia. }
        split; [lia|]. cbn [contains]. rewrite I2, orb_false_r.
        destruct (startswith [BACKTICK; BACKTICK; BACKTICK]
                    (c :: replace_from 0 [BACKTICK; BACKTICK; BACKTICK] [] s)) eqn:S';
          [|reflexivity].
        apply (startswith_ticks []) in S'.
        assert (3 <= lead_ticks (c :: s))%nat by lia.
        apply ticks_startswith in H. congruence.
    + cbn [replace_from]. cbn [lead_ticks] in Hk |- *.
      destruct (c =? BACKTICK); [|lia].
      destruct (IH k ltac:(lia)) as [I1 I2]. split; [lia | exact I2].
Qed.

Lemma clean_json_no_ticks (txt : str) :
  contains (u "```") (clean_json txt) = false.
Proof.
  unfold clean_json.
  destruct (contains (u "```") (strip (replace (u "```") [] (replace (u "```json") [] txt))))
    eqn:C; [|reflexivity].
  apply contains_strip in C.
  change (u "```") with [BACKTICK; BACKTICK; BACKTICK] in C.
  unfold replace in C.
  rewrite (proj2 (replace_ticks _ 0%nat ltac:(lia))) in C. discriminate.
Qed.

(** X17.  What [clean_json] returns holds no fence of three backticks
    and no whitespace at its ends, and cleaning it again changes
    nothing. *)
Theorem clean_json_clean (txt : str) :
  contains (u "```") (clean_json txt) = false /\
  strip (clean_json txt) = clean_json txt /\
  clean_json (clean_json txt) = clean_json txt.
Proof.
  pose proof (clean_json_no_ticks txt) as N.
  assert (S : strip (clean_json txt) = clean_json txt)
    by (unfold clean_json; apply strip_strip).
  split; [exact N|]. split; [exact S|].
  assert (NJ : contains (u "```json") (clean_json txt) = false).
  { destruct (contains (u "```json") (clean_json txt)) eqn:C; [|reflexivity].
    change (u "```json") with (u "```" ++ u "json") in C.
    apply contains_longer in C. congruence. }
  unfold clean_json at 1.
  change (replace (u "```json") [] (clean_json txt))
    with (replace_from 0 (u "```json") [] (clean_json txt)).
  rewrite (replace_from_absent _ _ _ NJ).
  change (replace (u "```") [] (clean_json txt))
    with (replace_from 0 (u "```") [] (clean_json txt)).
  rewrite (replace_from_absent _ _ _ N). exact S.
Qed.

Lemma contains_no_first (o : Z) (old x : str) :
  forallb (fun c => negb (c =? o)) x = true -> contains (o :: old) x = false.
Proof.
  induction x as [|c x IH]; intros H; [reflexivity|].
  cbn [forallb] in H. apply andb_true_iff in H. destruct H as [Hc Hx].
  apply negb_true_iff in Hc. cbn [contains startswith].
  rewrite Z.eqb_sym, Hc, (IH Hx). reflexivity.
Qed.

Lemma lead_ticks_none (x : str) :
  forallb (fun c => negb (c =? BACKTICK)) x = true -> lead_ticks x = 0%nat.
Proof.
  destruct x as [|c x]; [reflexivity|]. cbn [forallb lead_ticks]. intros H.
  apply andb_true_iff in H. destruct H as [Hc _].
  apply negb_true_iff in Hc. rewrite Hc. reflexivity.
Qed.

(** A closing fence is no opening fence with its tag, unless the tag
    follows it. *)
Lemma closing_fence_kept (post : str) :
  forallb (fun c => negb (c =? BACKTICK)) post = true ->
  startswith (u "json") post = false ->
  contains (u "```json") (u "```" ++ post) = false.
Proof.
  intros Hp Hj.
  change (u "```json") with ([BACKTICK; BACKTICK; BACKTICK] ++ u "json").
  change (u "```") with [BACKTICK; BACKTICK; BACKTICK].
  pose proof (lead_ticks_none post Hp) as L0.
  cbn [app contains]. rewrite (contains_no_first _ _ _ Hp), !orb_false_r.
  apply orb_false_iff. split; [|apply orb_false_iff; split].
  - cbn [startswith]. rewrite Z.eqb_refl. cbn [andb]. exact Hj.
  - destruct (startswith _ (BACKTICK :: BACKTICK :: post)) eqn:S; [|reflexivity].
    apply (startswith_ticks (u "json")) in S. cbn [lead_ticks] in S.
    rewrite Z.eqb_refl, L0 in S. lia.
  - destruct (startswith _ (BACKTICK :: post)) eqn:S; [|reflexivity].
    apply (startswith_ticks (u "json")) in S. cbn [lead_ticks] in S.
    rewrite Z.eqb_refl, L0 in S. lia.
Qed.

(** X18.  On text without backticks [clean_json] is [strip]; and when
    such text holds one block fenced with the tag json, what is left
    is the text with the two fences taken out, stripped. *)
Theorem clean_json_unfences (pre body post : str) :
  forallb (fun c => negb (c =? BACKTICK)) pre = true ->
  forallb (fun c => negb (c =? BACKTICK)) body = true ->
  forallb (fun c => negb (c =? BACKTICK)) post = true ->
  startswith (u "json") post = false ->
  clean_json body = strip body /\
  clean_json (pre ++ u "```json" ++ body ++ u "```" ++ post)
  = strip (pre ++ body ++ post).
Proof.
  intros Hpre Hbody Hpost Hj. unfold clean_json.
  change (replace (u "```") []) with (replace_from 0 (u "```") []).
  change (replace (u "```json") []) with (replace_from 0 (u "```json") []).
  split.
  - change (u "```json") with (BACKTICK :: [BACKTICK; BACKTICK] ++ u "json").
    change (u "```") with (BACKTICK :: [BACKTICK; BACKTICK]).
    rewrite (replace_from_absent _ _ body (contains_no_first _ _ _ Hbody)).
    rewrite (replace_from_absent _ _ body (contains_no_first _ _ _ Hbody)).
    reflexivity.
  - assert (E1 : replace_from 0 (u "```json") []
                   (pre ++ u "```json" ++ body ++ u "```" ++ post)
                 = pre ++ body ++ u "```" ++ post).
    { pose proof (closing_fence_kept post Hpost Hj) as K. revert K.
      change (u "```json") with (BACKTICK :: [BACKTICK; BACKTICK] ++ u "json").
      intros K.
      rewrite (replace_from_pass _ _ _ pre _ Hpre), replace_from_match.
      cbn [app]. rewrite (replace_from_pass _ _ _ body _ Hbody).
      rewrite (replace_from_absent _ _ _ K). reflexivity. }
    rewrite E1.
    change (u "```") with (BACKTICK :: [BACKTICK; BACKTICK]).
    rewrite (replace_from_pass _ _ _ pre _ Hpre).
    rewrite (replace_from_pass _ _ _ body _ Hbody), replace_from_match.
    rewrite (replace_from_absent _ _ post (contains_no_first _ _ _ Hpost)).
    reflexivity.
Qed.

Lemma clean_json_unfences_witness :
  clean_json (u "Here you go: ```json" ++ [NL] ++ u "{}" ++ [NL] ++ u "```" ++ [NL])
  = u "Here you go: " ++ [NL] ++ u "{}".
Proof.
  destruct (clean_json_unfences (u "Here you go: ") ([NL] ++ u "{}" ++ [NL]) [NL]
              eq_refl eq_refl eq_refl eq_refl) as [_ E].
  rewrite <- !app_assoc in E. cbn [app] in E.
  etransitivity; [exact E|]. vm_compute. reflexivity.
Defined.

(** ** The API key *)

(** X19.  [get_api_key] lets no error out, and the key it returns has
    no whitespace at its ends; the script goes past its start only
    with such a key that is not empty. *)
Theorem api_key_stripped (src : key_sources) :
  (forall e, get_api_key src = Raise e -> isinstance e "Exception" = false) /\
  (forall k, get_api_key src = Return k -> strip k = k) /\
  (forall k, start_app src = Return (Started k) -> k <> [] /\ strip k = k).
Proof.
  assert (A : forall e, get_api_key src = Raise e -> isinstance e "Exception" = false).
  { intros e. unfold get_api_key.
    destruct (secrets_has_key src) as [[|] | e1].
    - destruct (secrets_key_text src) as [v | e2]; [discriminate|].
      destruct (isinstance e2 "Exception") eqn:I; [discriminate|].
      intros H. injection H as <-. exact I.
    - discriminate.
    - destruct (isinstance e1 "Exception") eqn:I; [discriminate|].
      intros H. injection H as <-. exact I. }
  assert (B : forall k, get_api_key src = Return k -> strip k = k).
  { intros k. unfold get_api_key.
    destruct (secrets_has_key src) as [[|] | e1].
    - destruct (secrets_key_text src) as [v | e2].
      + intros H. injection H as <-. apply strip_strip.
      + destruct (isinstance e2 "Exception"); [|discriminate].
        intros H. injection H as <-. apply strip_strip.
    - intros H. injection H as <-. apply strip_strip.
    - destruct (isinstance e1 "Exception"); [|discriminate].
      intros H. injection H as <-. apply strip_strip. }
  split; [exact A|]. split; [exact B|].
  intros k. unfold start_app.
  destruct (get_api_key src) as [k0 | e] eqn:G; [|discriminate].
  destruct k0 as [|c k0]; cbn [truthy]; [discriminate|].
  intros H. injection H as <-. split; [discriminate | apply (B _ eq_refl)].
Qed.

Lemma api_key_stripped_witness :
  u "sk-123" <> [] /\ strip (u "sk-123") = u "sk-123".
Proof.
  apply (api_key_stripped
           {| secrets_has_key := Raise KeyError;
              secrets_key_text := Raise KeyError;
              environ_key := Some (u "  sk-123 " ++ [NL]) |}).
  vm_compute. reflexivity.
Defined.

(** X20.  Where the key comes from: the secrets when they hold it,
    whatever the environment says, so that a blank secret stops the
    script even beside a good environment variable; the environment
    variable when the secrets lack the key or reading them raises an
    error; and with neither the script stops. *)
Theorem api_key_precedence (src : key_sources) :
  (forall v, secrets_has_key src = Return true ->
             secrets_key_text src = Return v ->
             start_app src =
             Return (if blank v then Stopped else Started (strip v))) /\
  ((secrets_has_key src = Return false \/
    (exists e, secrets_has_key src = Raise e /\ isinstance e "Exception" = true) \/
    (exists e, secrets_has_key src = Return true /\
               secrets_key_text src = Raise e /\
               isinstance e "Exception" = true)) ->
   start_app src =
   Return match environ_key src with
          | Some v => if blank v then Stopped else Started (strip v)
          | None => Stopped
          end).
Proof.
  assert (T : forall v, (if truthy (strip v) then Started (strip v) else Stopped)
                        = if blank v then Stopped else Started (strip v)).
  { intros v. rewrite truthy_strip. destruct (blank v); reflexivity. }
  unfold start_app, get_api_key. split.
  - intros v H1 H2. rewrite H1, H2, T. reflexivity.
  - intros [H | [[e [H I]] | [e [H1 [H2 I]]]]].
    + rewrite H. destruct (environ_key src) as [v|]; [rewrite T|]; reflexivity.
    + rewrite H, I. destruct (environ_key src) as [v|]; [rewrite T|]; reflexivity.
    + rewrite H1, H2, I.
      destruct (environ_key src) as [v|]; [rewrite T|]; reflexivity.
Qed.

Lemma api_key_precedence_witness :
  start_app {| secrets_has_key := Return true;
               secrets_key_text := Return (u "   ");
               environ_key := Some (u "sk-123") |} = Return Stopped /\
  start_app {| secrets_has_key := Raise KeyError;
               secrets_key_text := Raise KeyError;
               environ_key := Some (u " sk-123 ") |} = Return (Started (u "sk-123")).
Proof.
  split.
  - destruct (api_key_precedence
                {| secrets_has_key := Return true;
                   secrets_key_text := Return (u "   ");
                   environ_key := Some (u "sk-123") |}) as [A _].
    apply (A (u "   ") eq_refl eq_refl).
  - destruct (api_key_precedence
                {| secrets_has_key := Raise KeyError;
                   secrets_key_text := Raise KeyError;
                   environ_key := Some (u " sk-123 ") |}) as [_ B].
    rewrite B.
    + vm_compute. reflexivity.
    + right. left. exists KeyError. split; reflexivity.
Defined.

(** ** Normalisation as words joined by single spaces *)

Lemma rstrip_cons_word (c : Z) (t : str) :
  isspace c = false -> rstrip (c :: t) = c :: rstrip t.
Proof. intros H. cbn [rstrip]. rewrite H. destruct (rstrip t); reflexivity. Qed.

Lemma rstrip_cons_kept (c : Z) (t : str) :
  rstrip t <> [] -> rstrip (c :: t) = c :: rstrip t.
Proof. intros H. cbn [rstrip]. destruct (rstrip t); [congruence | reflexivity]. Qed.

Lemma sub_ws_true_lstrip (t : str) : sub_ws true t = sub_ws false (lstrip t).
Proof.
  unfold lstrip. induction t as [|c t IH]; [reflexivity|].
  cbn [sub_ws dropwhile]. destruct (isspace c) eqn:E; [exact IH|].
  cbn [sub_ws]. rewrite E. reflexivity.
Qed.

Lemma lstrip_ends_clean (t : str) :
  ends_clean t = true -> ends_clean (lstrip t) = true.
Proof.
  unfold lstrip. induction t as [|c t IH]; [reflexivity|].
  intros H. cbn [dropwhile]. destruct (isspace c) eqn:E; [|exact H].
  apply IH. cbn [ends_clean] in H. destruct t; [|exact H].
  rewrite E in H. discriminate.
Qed.

Lemma lstrip_rstrip (t : str) : lstrip (rstrip t) = strip t.
Proof.
  destruct (rstrip_split t) as [w2 [H2 E2]].
  destruct (lstrip_split (rstrip t)) as [w1 [H1 E1]].
  assert (E : t = w1 ++ lstrip (rstrip t) ++ w2).
  { rewrite app_assoc, <- E1. exact E2. }
  rewrite E at 2. rewrite (strip_pad _ _ _ H1 H2). symmetry.
  apply strip_id; [apply lstrip_starts_clean|].
  apply lstrip_ends_clean, rstrip_ends_clean.
Qed.

Lemma split_from_blank (t : str) : blank t = true -> split_from [] t = [].
Proof.
  unfold blank. induction t as [|c t IH]; [reflexivity|].
  cbn [forallb split_from]. intros H. apply andb_true_iff in H.
  destruct H as [Hc Ht]. rewrite Hc. exact (IH Ht).
Qed.

Lemma split_from_open (t : str) :
  forall cur, cur <> [] -> split_from cur t <> [].
Proof.
  induction t as [|c t IH]; intros cur H; cbn [split_from].
  - destruct cur; [congruence | discriminate].
  - destruct (isspace c).
    + destruct cur; [congruence | discriminate].
    + apply IH. discriminate.
Qed.

Lemma split_from_not_blank (t : str) : blank t = false -> split_from [] t <> [].
Proof.
  unfold blank. induction t as [|c t IH]; [discriminate|].
  cbn [forallb split_from]. destruct (isspace c); cbn [andb].
  - exact IH.
  - intros _. apply split_from_open. discriminate.
Qed.

Lemma join_split_from (t : str) :
  (forall cur, cur <> [] ->
     join [0x20] (split_from cur t) = rev cur ++ sub_ws false (rstrip t)) /\
  join [0x20] (split_from [] t) = sub_ws false (strip t).
Proof.
  induction t as [|c t [IH1 IH2]].
  - split; [|reflexivity]. intros cur H. cbn [split_from rstrip sub_ws].
    destruct cur; [congruence|]. cbn [join]. reflexivity.
  - destruct (isspace c) eqn:Ec.
    + split.
      * intros cur H. cbn [split_from]. rewrite Ec.
        destruct cur as [|x cur]; [congruence|]. cbn [join]. f_equal.
        destruct (blank t) eqn:B.
        -- rewrite (split_from_blank t B). cbn [rstrip].
           rewrite (proj2 (rstrip_nil t) B), Ec. reflexivity.
        -- pose proof (split_from_not_blank t B) as N.
           destruct (split_from [] t) as [|w ws] eqn:S; [congruence|].
           rewrite IH2, rstrip_cons_kept
             by (intros R; apply rstrip_nil in R; congruence).
           cbn [sub_ws app]. rewrite Ec. f_equal.
           rewrite sub_ws_true_lstrip, lstrip_rstrip. reflexivity.
      * cbn [split_from]. rewrite Ec, IH2. unfold strip, lstrip.
        cbn [dropwhile]. rewrite Ec. reflexivity.
    + assert (E : forall cur,
                 join [0x20] (split_from cur (c :: t))
                 = rev cur ++ sub_ws false (rstrip (c :: t))).
      { intros cur. cbn [split_from]. rewrite Ec.
        rewrite (IH1 (c :: cur)) by discriminate.
        rewrite (rstrip_cons_word c t Ec). cbn [rev sub_ws]. rewrite Ec.
        rewrite <- app_assoc. reflexivity. }
      split; [intros cur _; apply E|].
      rewrite (E []). unfold strip, lstrip. cbn [dropwhile rev app].
      rewrite Ec. reflexivity.
Qed.

(** Collapsing the whitespace of a stripped string is joining its
    words with single spaces. *)
Lemma join_split (t : str) : join [0x20] (split t) = re_sub_ws (strip t).
Proof. apply (proj2 (join_split_from t)). Qed.

(** C7.  [normalize_text] is idempotent.  On every string it is the
    words of the lower-cased string joined by single spaces: whitespace
    at the ends is dropped, every run of whitespace between two words
    becomes one space, and the words are in lower case; so its result is
    left as it is by [strip], by [lower] and by the collapsing of
    whitespace.  On the sample of the specification it gives
    "hi there". *)
Theorem normalize_text_idempotent :
  (forall x, normalize_text (normalize_text x) = normalize_text x) /\
  (forall x, normalize_text x = join [0x20] (split (lower x))) /\
  (forall x, strip (normalize_text x) = normalize_text x /\
             lower (normalize_text x) = normalize_text x /\
             re_sub_ws (normalize_text x) = normalize_text x) /\
  normalize_text (u "  HI   there") = u "hi there".
Proof.
  split; [|split; [|split]].
  - intros x. apply normal_fixed, normalize_text_normal.
  - intros x. rewrite join_split, strip_lower. reflexivity.
  - intros x. pose proof (normalize_text_normal x) as N. unfold normal in N.
    apply andb_true_iff in N. destruct N as [N N3].
    apply andb_true_iff in N. destruct N as [N1 N2].
    split; [|split].
    + apply strip_id; [exact N1 | exact (tidy_ends_clean _ false N2)].
    + apply lower_from_stable, N3.
    + apply tidy_sub_ws, N2.
  - vm_compute. reflexivity.
Qed.

(** ** The first line of a response *)

(** C2.  A category on the first line of the response is not returned
    when other lines follow it: the response below has the two lines
    "exchange rate" and "card arrival", its first line is an allowed
    category as it stands, normalised and trimmed, and what
    [parse_category] returns is "card arrival", found by the search in
    the whole normalised text. *)
Theorem parse_category_first_line_not_kept :
  splitlines (u "exchange rate" ++ [NL] ++ u "card arrival")
  = [u "exchange rate"; u "card arrival"] /\
  strip (normalize_text (u "exchange rate")) = u "exchange rate" /\
  str_in (u "exchange rate") ALLOWED_CATEGORIES = true /\
  first_line (normalize_text (u "exchange rate" ++ [NL] ++ u "card arrival"))
  = Return (u "exchange rate card arrival") /\
  parse_category (u "exchange rate" ++ [NL] ++ u "card arrival")
  = Return (u "card arrival") /\
  str_eqb (u "card arrival") (u "exchange rate") = false.
Proof. repeat split; vm_compute; reflexivity. Qed.

(** C3.  On a response of whitespace alone the normalised text is
    empty: its first line, the text up to the first line boundary, is
    empty too and is no allowed category, and no category occurs in the
    normalised text; yet [parse_category] does not return the fallback
    category, it raises [IndexError]. *)
Theorem parse_category_no_fallback_on_blank :
  normalize_text (u "   ") = [] /\
  str_in [] ALLOWED_CATEGORIES = false /\
  forallb (fun c => negb (contains c (normalize_text (u "   "))))
          ALLOWED_CATEGORIES = true /\
  parse_category (u "   ") = Raise IndexError /\
  parse_category (u "") = Raise IndexError.
Proof. repeat split; vm_compute; reflexivity. Qed.
